(** * Projektant Schodów: the stair dimensioning engine and its norm checker

    A shallow embedding of [calculateStairs] and [checkNorms] from
    [src/App.jsx] (lines 53-89), with the properties the specification
    states about them.

    Number model.  A JavaScript number is idealised as a real number
    ([R]): the arithmetic of the source ([+], [-], [*], [/], [Math.max],
    [Math.min], [Math.sqrt], [Math.atan2], [Math.PI]) is read as exact
    arithmetic, so binary64 rounding error, [NaN] and the infinities are
    outside that model.  An argument that may be missing ([undefined]) is
    an [option R]; [None] also stands for [NaN], which JavaScript treats
    the same way in [||] and [&&].  The step count, an integer produced by
    [Math.round], is a [Z].

    Where the idealisation and the program part.  The program computes on
    binary64 numbers, and three things differ from exact arithmetic: a
    value within a rounding error of a tie of [toFixed(1)] may round the
    other way; a step count of 2^53 or more is not changed by [steps -= 1];
    a product beyond the largest double is [Infinity].  The bounds stated
    below about rounded fields therefore carry a slack and, where they
    need one, a range of inputs; and lines 56-63 are modelled a second time
    on binary64 numbers (module [B64]), where the second loop is shown not
    to end on an input the exact model lets through. *)

From Stdlib Require Import Floats Uint63.
From Stdlib Require Import Reals Lra Lia ZArith Bool String List.
Import ListNotations.

Open Scope R_scope.

(** ** Host operations *)

Module Js.

(** [function clamp(v, a, b) { return Math.max(a, Math.min(b, v)) }] *)
Definition clamp (v a b : R) : R := Rmax a (Rmin b v).

(** [Math.round(x)]: the nearest integer, a tie going towards +infinity,
    that is [floor(x + 1/2)]. *)
Definition round (x : R) : Z := Int_part (x + / 2).

(** The comparisons [a < b] and [a > b] as booleans. *)
Definition ltb (a b : R) : bool := if Rlt_dec a b then true else false.
Definition gtb (a b : R) : bool := ltb b a.

(** Truthiness of a number: [0] is falsy ([NaN] is not in the model). *)
Definition truthy (v : R) : bool := if Req_dec_T v 0 then false else true.

(** [a || d] for an optional number [a]: [undefined], [NaN] and [0] are
    falsy and give [d]. *)
Definition or_default (a : option R) (d : R) : R :=
  match a with
  | Some v => if truthy v then v else d
  | None => d
  end.

(** [+x.toFixed(1)].  [Number.prototype.toFixed] works on the absolute
    value and puts the sign back; it picks the integer [n] with [n / 10]
    closest to the value, the larger one on a tie; from [10^21] on it
    returns the number's own string, which [+] reads back unchanged. *)
Definition toFixed1 (x : R) : R :=
  if Rle_dec (10 ^ 21) (Rabs x) then x
  else if Rlt_dec x 0 then - (IZR (Int_part (10 * (- x) + / 2)) / 10)
  else IZR (Int_part (10 * x + / 2)) / 10.

(** [Math.atan2(y, x)]. *)
Definition atan2 (y x : R) : R :=
  if Rlt_dec 0 x then atan (y / x)
  else if Rlt_dec x 0 then
    if Rle_dec 0 y then atan (y / x) + PI else atan (y / x) - PI
  else if Rlt_dec 0 y then PI / 2
  else if Rlt_dec y 0 then - (PI / 2)
  else 0.

End Js.

(** ** The geometry record *)

Record Geometry : Type := mkGeometry {
  steps : Z;
  riser : R;
  tread : R;
  totalRun : R;
  stringerLength : R;
  angleDeg : R
}.

(** ** The dimensioning engine *)

(** [while (riser > 210 && steps < 200) { steps += 1; riser = rise / steps }]
    The loop adds one step per turn and stops at 200 at the latest, so
    [200 - steps] turns are enough ([loopA_fuel_enough]). *)
Fixpoint loopA (fuel : nat) (rise : R) (steps : Z) (riser : R) : Z * R :=
  match fuel with
  | O => (steps, riser)
  | S fuel' =>
      if Js.gtb riser 210 && (steps <? 200)%Z
      then loopA fuel' rise (steps + 1)%Z (rise / IZR (steps + 1))
      else (steps, riser)
  end.

(** [while (riser < 120 && steps > 1) { steps -= 1; riser = rise / steps }]
    The loop removes one step per turn and stops at 1 at the latest, so
    [steps] turns are enough ([loopB_fuel_enough]). *)
Fixpoint loopB (fuel : nat) (rise : R) (steps : Z) (riser : R) : Z * R :=
  match fuel with
  | O => (steps, riser)
  | S fuel' =>
      if Js.ltb riser 120 && (steps >? 1)%Z
      then loopB fuel' rise (steps - 1)%Z (rise / IZR (steps - 1))
      else (steps, riser)
  end.

(** The step count and riser after line 61, before the two loops. *)
Definition initialSteps (totalRise : R) (desiredRiser : option R) : Z * R :=
  let rise := Rmax 10 totalRise in
  let targetRiser := Js.or_default desiredRiser 170 in
  let targetRiser := Js.clamp targetRiser 120 210 in
  let steps := Js.round (rise / targetRiser) in
  let steps := if (steps <? 1)%Z then 1%Z else steps in
  let riser := rise / IZR steps in
  (steps, riser).

(** The step count and riser after loop A (line 62). *)
Definition afterLoopA (totalRise : R) (desiredRiser : option R) : Z * R :=
  let rise := Rmax 10 totalRise in
  let '(steps, riser) := initialSteps totalRise desiredRiser in
  loopA (Z.to_nat (200 - steps)) rise steps riser.

(** The step count and riser after loop B (line 63). *)
Definition afterLoopB (totalRise : R) (desiredRiser : option R) : Z * R :=
  let rise := Rmax 10 totalRise in
  let '(steps, riser) := afterLoopA totalRise desiredRiser in
  loopB (Z.to_nat steps) rise steps riser.

(** Some step count between 1 and 200 puts the riser [rise / s] into the
    band [120, 210]. *)
Definition achievable (rise : R) : Prop :=
  exists s : Z, (1 <= s <= 200)%Z /\ 120 <= rise / IZR s <= 210.

(** [(landingDepth && landingDepth > 0) ? landingDepth : 900] *)
Definition landingOr900 (landingDepth : option R) : R :=
  match landingDepth with
  | Some d => if Js.truthy d && Js.gtb d 0 then d else 900
  | None => 900
  end.

(** The landing term in the words of the specification: "[landingDepth] if
    it is a positive number, else 900". *)
Definition landingPerSpec (landingDepth : option R) : R :=
  match landingDepth with
  | Some d => if Rlt_dec 0 d then d else 900
  | None => 900
  end.

(** Lines 56-71 of [calculateStairs]: the values of the local variables
    [steps], [riser], [tread], [totalRun], [stringerLength] and [angleDeg]
    just before the [return], not yet rounded. *)
Definition stairsBody (totalRise : R) (desiredRiser desiredTread : option R)
    (stairType : string) (landingDepth : option R) : Geometry :=
  let rise := Rmax 10 totalRise in
  let '(steps, riser) := afterLoopB totalRise desiredRiser in
  let tFromRule := 600 - 2 * riser in
  let tread := Js.or_default desiredTread tFromRule in
  let tread := Js.clamp tread 160 400 in
  let tread := if String.eqb stairType "spiral" then Rmin tread 240 else tread in
  let totalRun := tread * IZR steps in
  let totalRun :=
    if String.eqb stairType "l" || String.eqb stairType "u"
    then totalRun + landingOr900 landingDepth
    else totalRun in
  let stringerLength := sqrt (totalRun * totalRun + rise * rise) in
  let angleDeg := Js.atan2 rise totalRun * 180 / PI in
  mkGeometry steps riser tread totalRun stringerLength angleDeg.

(** Lines 72-74: the returned object, every field but [steps] passed
    through [+x.toFixed(1)]. *)
Definition roundGeometry (g : Geometry) : Geometry :=
  {| steps := steps g;
     riser := Js.toFixed1 (riser g);
     tread := Js.toFixed1 (tread g);
     totalRun := Js.toFixed1 (totalRun g);
     stringerLength := Js.toFixed1 (stringerLength g);
     angleDeg := Js.toFixed1 (angleDeg g) |}.

Definition calculateStairs (totalRise : R) (desiredRiser desiredTread : option R)
    (stairType : string) (landingDepth : option R) : Geometry :=
  roundGeometry (stairsBody totalRise desiredRiser desiredTread stairType landingDepth).

(** The hypotenuse relation between the returned fields, read over a rise
    [base]: the returned stringer length is the hypotenuse of the returned
    total run and [base], up to the 0.05 that rounding to one decimal can
    move each of the two fields. *)
Definition hypotenuse_over (base : R) (g : Geometry) : Prop :=
  Rabs (stringerLength g - sqrt (totalRun g * totalRun g + base * base)) <= / 10.

(** ** The norm checker *)

Section Norms.

(** The conversion of a number to a string that a template literal applies
    to [${...}] (the host's [Number::toString]). *)
Variable toString : R -> string.

Definition warnRiserBelow120 : string :=
  "Wysokość podstopnia poniżej 120 mm — nietypowo niska.".
Definition warnRiserBelow150 : string :=
  "Wysokość podstopnia < 150 mm — poniżej zalecanego zakresu ergonomicznego.".
Definition warnRiserAbove200 : string :=
  "Wysokość podstopnia > 200 mm — przekracza typowe limity i może być niebezpieczna.".
Definition warnTreadBelow240 : string :=
  "Głębokość biegu < 240 mm — może być zbyt mała dla komfortu chodu.".
Definition warnBlondel (sum : R) : string :=
  ("Zasada Blondela (2R + T) poza zakresem 550–700 mm (obecnie "
   ++ toString (IZR (Js.round sum)) ++ " mm). Optimum ≈ 600 mm.")%string.
Definition warnAngle (angleDeg : R) : string :=
  ("Kąt schodów (" ++ toString angleDeg ++ "°) większy niż 45° — strome.")%string.

(** [if (c) warnings.push(m)] *)
Definition pushIf (c : bool) (m : string) (warnings : list string) : list string :=
  if c then warnings ++ [m] else warnings.

Definition checkNorms (result : Geometry) : list string :=
  let warnings := [] in
  let r := riser result in
  let t := tread result in
  let sum := 2 * r + t in
  let warnings := pushIf (Js.ltb r 120) warnRiserBelow120 warnings in
  let warnings := pushIf (Js.ltb r 150) warnRiserBelow150 warnings in
  let warnings := pushIf (Js.gtb r 200) warnRiserAbove200 warnings in
  let warnings := pushIf (Js.ltb t 240) warnTreadBelow240 warnings in
  let warnings :=
    pushIf (Js.ltb sum 550 || Js.gtb sum 700) (warnBlondel sum) warnings in
  let warnings :=
    pushIf (Js.gtb (angleDeg result) 45) (warnAngle (angleDeg result)) warnings in
  warnings.

(** The six messages in the order of their checks, for a given record. *)
Definition allWarnings (result : Geometry) : list string :=
  [ warnRiserBelow120; warnRiserBelow150; warnRiserAbove200; warnTreadBelow240;
    warnBlondel (2 * riser result + tread result); warnAngle (angleDeg result) ].

(** A string is one of the six message templates. *)
Definition isTemplate (s : string) : Prop :=
  s = warnRiserBelow120 \/ s = warnRiserBelow150 \/ s = warnRiserAbove200 \/
  s = warnTreadBelow240 \/ (exists sum, s = warnBlondel sum) \/
  (exists a, s = warnAngle a).

End Norms.

(** [subseq l m]: [l] is [m] with some elements left out, the order kept. *)
Inductive subseq {A : Type} : list A -> list A -> Prop :=
| subseq_nil : subseq [] []
| subseq_skip x l m : subseq l m -> subseq l (x :: m)
| subseq_keep x l m : subseq l m -> subseq (x :: l) (x :: m).

(** ** The [compute] handler of the form (lines 213-217)

    [Number(x)] turns every form field into a number ([NaN] is outside the
    model), so the optional arguments of [calculateStairs] are always
    present here; [setResult(res)] and [setWarnings(checkNorms(res))] are
    the two components of the returned pair. *)
Definition compute (toString : R -> string)
    (totalRise desiredRiser desiredTread : R) (stairType : string)
    (landingDepth : R) : Geometry * list string :=
  let res := calculateStairs totalRise (Some desiredRiser) (Some desiredTread)
                             stairType (Some landingDepth) in
  (res, checkNorms toString res).

(** ** The 3D preview: the objects [useThree] adds to the scene
    (lines 92-185)

    The scene is the list of the objects passed to [scene.add], in the
    order of the calls.  A mesh is its geometry, the parameters given to
    its material, its position and its rotation about the z axis (0 when
    the source sets none).  The renderer, the camera, the orbit controls
    and the resize listener are not modelled; the canvas element is taken
    to be mounted. *)

Inductive BufferGeometry : Type :=
| BoxGeometry (width height depth : R)
| CylinderGeometry (radiusTop radiusBottom height : R) (radialSegments : Z).

(** The parameters of a [MeshStandardMaterial]; a parameter the source
    does not pass is [None]. *)
Record Material : Type := mkMaterial {
  color : Z;
  metalness : R;
  roughness : option R;
  opacity : option R;
  transparent : option bool
}.

Inductive Object3D : Type :=
| AmbientLight (lightColor : Z) (intensity : R)
| DirectionalLight (lightColor : Z) (intensity : R) (position : R * R * R)
| Mesh (geometry : BufferGeometry) (material : Material)
       (position : R * R * R) (rotationZ : R).






(** The stringer of a steel stair (lines 142-152). *)
Definition stringerMesh (result : Geometry) : Object3D :=
  let totalRunM := totalRun result / 1000 in
  let totalRiseM := (IZR (steps result) * riser result) / 1000 in
  let angle := Js.atan2 totalRiseM totalRunM in
  let length := sqrt (totalRunM * totalRunM + totalRiseM * totalRiseM) in
  Mesh (BoxGeometry length 0.04 0.05)
       (mkMaterial 0xaeb6bf 1 (Some 0.2) None None)
       (totalRunM / 2, totalRiseM / 2 - 0.02, -0.12) (- angle).








(** ** The profile catalog and its two selects (lines 25-50, 198-199,
    286-299, 325) *)

Record Profile : Type := mkProfile {
  name : string;
  dims : string;
  mass : R
}.

(** [PROFILES], an object used as a map from category to list. *)
Definition PROFILES : list (string * list Profile) :=
  [ ("angles"%string,
      [ mkProfile "L 40x40x4" "40x40x4" 1.2; mkProfile "L 50x50x5" "50x50x5" 1.8;
        mkProfile "L 63x63x6" "63x63x6" 2.7; mkProfile "L 80x80x8" "80x80x8" 4.5 ]);
    ("rhs"%string,
      [ mkProfile "RHS 40x20x2" "40x20x2" 1.1; mkProfile "RHS 60x40x3" "60x40x3" 2.2;
        mkProfile "RHS 80x40x4" "80x40x4" 3.5 ]);
    ("ibeams"%string,
      [ mkProfile "IPE 80" "IPE80" 6.6; mkProfile "IPE 100" "IPE100" 9.1;
        mkProfile "IPE 120" "IPE120" 11.6 ]);
    ("channels"%string,
      [ mkProfile "UPN 80" "UPN80" 5.0; mkProfile "UPN 100" "UPN100" 6.7 ]);
    ("pipes"%string,
      [ mkProfile "Ø33.7x2" "33.7x2" 2.0; mkProfile "Ø42.4x2" "42.4x2" 2.6 ]) ].

(** [PROFILES[key]]: [None] stands for [undefined]. *)
Fixpoint lookupCategory (catalog : list (string * list Profile)) (key : string)
    : option (list Profile) :=
  match catalog with
  | [] => None
  | (k, ps) :: rest => if String.eqb k key then Some ps else lookupCategory rest key
  end.

(** The two pieces of state behind the profile selects. *)
Record ProfileState : Type := mkProfileState {
  profileCategory : string;
  profileIndex : nat
}.

(** [useState('angles')], [useState(0)]. *)
Definition initialProfileState : ProfileState := mkProfileState "angles" 0.

(** The values of the [<option>]s of the category select (lines 288-292). *)
Definition categoryOptions : list string :=
  [ "angles"; "rhs"; "ibeams"; "channels"; "pipes" ]%string.

(** The values of the [<option>]s of the size select, one per entry of
    [PROFILES[profileCategory]] (line 297); [None] when that entry is
    [undefined] and [.map] throws. *)
Definition indexOptions (st : ProfileState) : option (list nat) :=
  match lookupCategory PROFILES (profileCategory st) with
  | Some ps => Some (seq 0 (length ps))
  | None => None
  end.

(** [PROFILES[profileCategory][profileIndex].name] (line 325); [None] when
    the access throws. *)
Definition selectedProfileName (st : ProfileState) : option string :=
  match lookupCategory PROFILES (profileCategory st) with
  | Some ps =>
      match nth_error ps (profileIndex st) with
      | Some p => Some (name p)
      | None => None
      end
  | None => None
  end.

(** What the user can do with the two selects: pick a category, which also
    resets the index (line 287), or pick one of the sizes on offer
    (line 296). *)
Inductive selectStep : ProfileState -> ProfileState -> Prop :=
| pickCategory (st : ProfileState) (value : string) :
    In value categoryOptions ->
    selectStep st (mkProfileState value 0)
| pickIndex (st : ProfileState) (options : list nat) (value : nat) :
    indexOptions st = Some options -> In value options ->
    selectStep st (mkProfileState (profileCategory st) value).

(** The states the two selects can reach from the initial one. *)
Inductive reachable : ProfileState -> Prop :=
| reach_initial : reachable initialProfileState
| reach_step (st st' : ProfileState) :
    reachable st -> selectStep st st' -> reachable st'.

(** ** Lines 56-63 in binary64

    The step count and the riser as the program computes them, on
    binary64 numbers ([float], the kernel's IEEE 754 doubles): every [/],
    [+] and [-] rounds to the nearest double, and [steps] is itself a
    double.  This is the arithmetic in which the two loops really run;
    the model over [R] above is its idealisation.  A loop that has used up
    its fuel with its guard still true has not returned: [None]. *)

Module B64.

(** [Math.max(a, b)]: [NaN] if either is [NaN]; [+0] is above [-0]. *)
Definition max (a b : float) : float :=
  if PrimFloat.is_nan a || PrimFloat.is_nan b then PrimFloat.nan
  else if PrimFloat.ltb a b then b
  else if PrimFloat.ltb b a then a
  else if PrimFloat.get_sign a then b else a.

(** [Math.min(a, b)]: [NaN] if either is [NaN]; [-0] is below [+0]. *)
Definition min (a b : float) : float :=
  if PrimFloat.is_nan a || PrimFloat.is_nan b then PrimFloat.nan
  else if PrimFloat.ltb a b then a
  else if PrimFloat.ltb b a then b
  else if PrimFloat.get_sign a then a else b.

(** [function clamp(v, a, b) { return Math.max(a, Math.min(b, v)) }] *)
Definition clamp (v a b : float) : float := max a (min b v).

(** Truthiness of a number: [NaN], [+0] and [-0] are falsy. *)
Definition truthy (v : float) : bool :=
  negb (PrimFloat.is_nan v || PrimFloat.is_zero v).

(** [a || d] for an optional number. *)
Definition or_default (a : option float) (d : float) : float :=
  match a with
  | Some v => if truthy v then v else d
  | None => d
  end.

(** [Math.round(x)]: the integer nearest to the exact value of [x], a tie
    going towards +infinity; computed on the mantissa and exponent of [x],
    so that no intermediate [x + 0.5] is rounded.  A double with a
    non-negative exponent is an integer already. *)
Definition round (x : float) : float :=
  match Prim2SF x with
  | S754_finite s m e =>
      if (0 <=? e)%Z then x
      else
        let k := (- e)%Z in
        let twice := if s then (- Z.pos m~0)%Z else Z.pos m~0 in
        let n := ((twice + 2 ^ k) / 2 ^ (k + 1))%Z in
        if (n =? 0)%Z then (if s then (-0)%float else 0%float)
        else if (n <? 0)%Z then PrimFloat.opp (PrimFloat.of_uint63 (Uint63.of_Z (- n)))
        else PrimFloat.of_uint63 (Uint63.of_Z n)
  | _ => x
  end.

(** Lines 56-61. *)
Definition initialSteps (totalRise : float) (desiredRiser : option float)
    : float * float :=
  let rise := max 10 totalRise in
  let targetRiser := or_default desiredRiser 170 in
  let targetRiser := clamp targetRiser 120 210 in
  let steps := round (rise / targetRiser)%float in
  let steps := if PrimFloat.ltb steps 1 then 1%float else steps in
  let riser := (rise / steps)%float in
  (steps, riser).

(** [while (riser > 210 && steps < 200) { steps += 1; riser = rise / steps }] *)
Fixpoint loopA (fuel : nat) (rise steps riser : float) : option (float * float) :=
  match fuel with
  | O =>
      if PrimFloat.ltb 210 riser && PrimFloat.ltb steps 200 then None
      else Some (steps, riser)
  | S fuel' =>
      if PrimFloat.ltb 210 riser && PrimFloat.ltb steps 200
      then loopA fuel' rise (steps + 1)%float (rise / (steps + 1))%float
      else Some (steps, riser)
  end.

(** [while (riser < 120 && steps > 1) { steps -= 1; riser = rise / steps }] *)
Fixpoint loopB (fuel : nat) (rise steps riser : float) : option (float * float) :=
  match fuel with
  | O =>
      if PrimFloat.ltb riser 120 && PrimFloat.ltb 1 steps then None
      else Some (steps, riser)
  | S fuel' =>
      if PrimFloat.ltb riser 120 && PrimFloat.ltb 1 steps
      then loopB fuel' rise (steps - 1)%float (rise / (steps - 1))%float
      else Some (steps, riser)
  end.

(** Lines 56-63 with [fuelA] turns allowed to loop A and [fuelB] to loop
    B: the step count and the riser on leaving loop B, or [None] when a
    loop is still running. *)
Definition stepsAndRiser (fuelA fuelB : nat) (totalRise : float)
    (desiredRiser : option float) : option (float * float) :=
  let rise := max 10 totalRise in
  let '(steps, riser) := initialSteps totalRise desiredRiser in
  match loopA fuelA rise steps riser with
  | Some (steps, riser) => loopB fuelB rise steps riser
  | None => None
  end.

End B64.

(** * Properties *)

(** ** Host operations *)

Lemma ltb_true (a b : R) : Js.ltb a b = true <-> a < b.
Proof.
  unfold Js.ltb. destruct (Rlt_dec a b); split; intros; auto; discriminate.
Qed.

Lemma ltb_false (a b : R) : Js.ltb a b = false <-> b <= a.
Proof.
  unfold Js.ltb. destruct (Rlt_dec a b); split; intros; try discriminate; auto; lra.
Qed.

Lemma gtb_true (a b : R) : Js.gtb a b = true <-> b < a.
Proof. apply ltb_true. Qed.

Lemma gtb_false (a b : R) : Js.gtb a b = false <-> a <= b.
Proof. apply ltb_false. Qed.

Lemma truthy_false (v : R) : Js.truthy v = false <-> v = 0.
Proof.
  unfold Js.truthy. destruct (Req_dec_T v 0); split; intros; congruence.
Qed.

Lemma truthy_true (v : R) : Js.truthy v = true <-> v <> 0.
Proof.
  unfold Js.truthy. destruct (Req_dec_T v 0); split; intros; congruence.
Qed.

(** Rewrites every real comparison, truthiness test and integer comparison
    that occurs as a hypothesis into the inequality it stands for. *)
Ltac unbool :=
  repeat match goal with
  | H : (_ && _)%bool = true |- _ => apply andb_true_iff in H; destruct H
  | H : (_ || _)%bool = false |- _ => apply orb_false_iff in H; destruct H
  | H : Js.ltb _ _ = true |- _ => apply ltb_true in H
  | H : Js.ltb _ _ = false |- _ => apply ltb_false in H
  | H : Js.gtb _ _ = true |- _ => apply gtb_true in H
  | H : Js.gtb _ _ = false |- _ => apply gtb_false in H
  | H : Js.truthy _ = true |- _ => apply truthy_true in H
  | H : Js.truthy _ = false |- _ => apply truthy_false in H
  | H : (_ <? _)%Z = true |- _ => apply Z.ltb_lt in H
  | H : (_ <? _)%Z = false |- _ => apply Z.ltb_ge in H
  | H : (_ >? _)%Z = true |- _ => apply Z.gtb_lt in H
  | H : (_ >? _)%Z = false |- _ => rewrite Z.gtb_ltb in H; apply Z.ltb_ge in H
  end.

Lemma floor_bounds (x : R) : IZR (Int_part x) <= x < IZR (Int_part x) + 1.
Proof. destruct (base_Int_part x). lra. Qed.

Lemma floor_unique (x : R) (n : Z) : IZR n <= x < IZR n + 1 -> Int_part x = n.
Proof. intros H. symmetry. apply Int_part_spec. lra. Qed.

Lemma floor_mono (x y : R) : x <= y -> (Int_part x <= Int_part y)%Z.
Proof.
  intros H. pose proof (floor_bounds x). pose proof (floor_bounds y).
  apply Z.lt_succ_r. apply lt_IZR. rewrite succ_IZR. lra.
Qed.

Lemma round_bounds (x : R) : IZR (Js.round x) - / 2 <= x < IZR (Js.round x) + / 2.
Proof. unfold Js.round. pose proof (floor_bounds (x + / 2)). lra. Qed.

Lemma round_unique (x : R) (n : Z) : IZR n - / 2 <= x < IZR n + / 2 -> Js.round x = n.
Proof. intros H. apply floor_unique. lra. Qed.

Lemma round_mono (x y : R) : x <= y -> (Js.round x <= Js.round y)%Z.
Proof. intros H. apply floor_mono. lra. Qed.

Lemma clamp_bounds (v a b : R) : a <= b -> a <= Js.clamp v a b <= b.
Proof.
  intros H. unfold Js.clamp, Rmax, Rmin.
  destruct (Rle_dec b v); destruct (Rle_dec a _); lra.
Qed.

Lemma clamp_id (v a b : R) : a <= v <= b -> Js.clamp v a b = v.
Proof.
  intros H. unfold Js.clamp, Rmax, Rmin.
  destruct (Rle_dec b v); destruct (Rle_dec a _); lra.
Qed.

Lemma rise_ge_10 (totalRise : R) : 10 <= Rmax 10 totalRise.
Proof. apply Rmax_l. Qed.

Lemma rise_id (totalRise : R) : 10 <= totalRise -> Rmax 10 totalRise = totalRise.
Proof. intros H. apply Rmax_right. exact H. Qed.

Lemma rise_mono (x y : R) : x <= y -> Rmax 10 x <= Rmax 10 y.
Proof. intros H. apply Rle_max_compat_l. exact H. Qed.

(** Rounding to one decimal moves a number by at most 0.05. *)
Lemma toFixed1_error (x : R) : Rabs (Js.toFixed1 x - x) <= / 20.
Proof.
  unfold Js.toFixed1.
  destruct (Rle_dec (10 ^ 21) (Rabs x)).
  - replace (x - x) with 0 by ring. rewrite Rabs_R0. lra.
  - destruct (Rlt_dec x 0).
    + pose proof (floor_bounds (10 * - x + / 2)). apply Rabs_le. lra.
    + pose proof (floor_bounds (10 * x + / 2)). apply Rabs_le. lra.
Qed.

(** The value of [+x.toFixed(1)] on a non-negative number below [10^21]. *)
Lemma toFixed1_value (x : R) (n : Z) :
  0 <= x -> x < 10 ^ 21 -> IZR n - / 2 <= 10 * x < IZR n + / 2 ->
  Js.toFixed1 x = IZR n / 10.
Proof.
  intros H0 H1 Hn. unfold Js.toFixed1.
  destruct (Rle_dec (10 ^ 21) (Rabs x)) as [Hbig|_].
  - rewrite Rabs_pos_eq in Hbig by exact H0. lra.
  - destruct (Rlt_dec x 0); [lra|].
    rewrite (floor_unique (10 * x + / 2) n) by lra. reflexivity.
Qed.

(** Rounding to one decimal never crosses a multiple of 0.1 upwards. *)
Lemma toFixed1_le (x : R) (k : Z) :
  0 <= x -> x <= IZR k / 10 -> Js.toFixed1 x <= IZR k / 10.
Proof.
  intros H0 Hk. unfold Js.toFixed1.
  destruct (Rle_dec (10 ^ 21) (Rabs x)); [exact Hk|].
  destruct (Rlt_dec x 0); [lra|].
  assert (Int_part (10 * x + / 2) <= k)%Z.
  { pose proof (floor_bounds (10 * x + / 2)).
    apply Z.lt_succ_r. apply lt_IZR. rewrite succ_IZR. lra. }
  apply IZR_le in H. lra.
Qed.

(** [Math.round] and [toFixed] on ties and on a negative number. *)
Example round_tie_up : Js.round (5 / 2) = 3%Z.
Proof. apply round_unique. lra. Qed.

Example round_negative_tie : Js.round (- (5 / 2)) = (-2)%Z.
Proof. apply round_unique. lra. Qed.

Example round_below_half : Js.round (10 / 170) = 0%Z.
Proof. apply round_unique. lra. Qed.

Example toFixed1_tie : Js.toFixed1 (16875 / 100) = 1688 / 10.
Proof. apply toFixed1_value; simpl; lra. Qed.

Example toFixed1_negative : Js.toFixed1 (- (25 / 100)) = - (3 / 10).
Proof.
  unfold Js.toFixed1.
  destruct (Rle_dec (10 ^ 21) (Rabs (- (25 / 100)))) as [Hbig|_].
  - rewrite Rabs_Ropp, Rabs_pos_eq in Hbig by lra. simpl in Hbig. lra.
  - destruct (Rlt_dec (- (25 / 100)) 0); [|lra].
    rewrite (floor_unique _ 3) by lra. lra.
Qed.

Lemma toFixed1_nonneg (x : R) : 0 <= x -> 0 <= Js.toFixed1 x.
Proof.
  intros H. unfold Js.toFixed1.
  destruct (Rle_dec (10 ^ 21) (Rabs x)); [exact H|].
  destruct (Rlt_dec x 0); [lra|].
  assert (Hn : (0 <= Int_part (10 * x + / 2))%Z).
  { rewrite <- (floor_unique 0 0) by lra. apply floor_mono. lra. }
  apply IZR_le in Hn. lra.
Qed.

(** ** Division by a positive step count *)

Lemma IZR_pos (s : Z) : (1 <= s)%Z -> 1 <= IZR s.
Proof. intros H. apply IZR_le in H. exact H. Qed.

Lemma div_lt_iff (x d c : R) : 0 < d -> (x / d < c <-> x < c * d).
Proof.
  intros Hd. assert (E : x = x / d * d) by (field; lra).
  split; intros H.
  - rewrite E. apply Rmult_lt_compat_r; assumption.
  - apply Rmult_lt_reg_r with d; [assumption|]. rewrite <- E. exact H.
Qed.

Lemma lt_div_iff (x d c : R) : 0 < d -> (c < x / d <-> c * d < x).
Proof.
  intros Hd. assert (E : x = x / d * d) by (field; lra).
  split; intros H.
  - rewrite E. apply Rmult_lt_compat_r; assumption.
  - apply Rmult_lt_reg_r with d; [assumption|]. rewrite <- E. exact H.
Qed.

Lemma div_le_iff (x d c : R) : 0 < d -> (x / d <= c <-> x <= c * d).
Proof.
  intros Hd. assert (E : x = x / d * d) by (field; lra).
  split; intros H.
  - rewrite E. apply Rmult_le_compat_r; lra.
  - apply Rmult_le_reg_r with d; [assumption|]. rewrite <- E. exact H.
Qed.

Lemma le_div_iff (x d c : R) : 0 < d -> (c <= x / d <-> c * d <= x).
Proof.
  intros Hd. assert (E : x = x / d * d) by (field; lra).
  split; intros H.
  - rewrite E. apply Rmult_le_compat_r; lra.
  - apply Rmult_le_reg_r with d; [assumption|]. rewrite <- E. exact H.
Qed.

(** ** Loop A *)

(** What loop A establishes, for any fuel: the riser stays [rise / steps],
    steps are only added, a step is added only below 200 and only because
    the riser before it was above 210; with [200 - steps] turns of fuel
    the loop has left through its guard. *)
Lemma loopA_spec (fuel : nat) (rise : R) :
  forall (s : Z) (r : R) (a : Z) (ra : R),
    loopA fuel rise s r = (a, ra) ->
    r = rise / IZR s ->
    (s <= a)%Z /\ ra = rise / IZR a /\
    (a = s \/ ((a <= 200)%Z /\ 210 < rise / IZR (a - 1))) /\
    ((200 - s <= Z.of_nat fuel)%Z -> ra <= 210 \/ (200 <= a)%Z).
Proof.
  induction fuel as [|fuel IH]; intros s r a ra Hrun Hr; simpl in Hrun.
  - inversion Hrun; subst. split; [lia|]. split; [reflexivity|]. split; [auto|].
    intros Hf. right. lia.
  - destruct (Js.gtb r 210 && (s <? 200)%Z) eqn:G.
    + unbool.
      destruct (IH _ _ _ _ Hrun eq_refl) as (Hle & Hra & Hprev & Hexit).
      split; [lia|]. split; [assumption|]. split.
      * right. destruct Hprev as [->|[Ha Hp]].
        -- split; [lia|]. replace (s + 1 - 1)%Z with s by lia. rewrite <- Hr. exact H.
        -- split; assumption.
      * intros Hf. apply Hexit. lia.
    + inversion Hrun; subst. split; [lia|]. split; [reflexivity|]. split; [auto|].
      intros _. apply andb_false_iff in G. destruct G as [G|G]; unbool; [left; lra|right; lia].
Qed.

(** More fuel than [200 - steps] changes nothing: the bound is a bound on
    the turns of the [while] loop itself. *)
Lemma loopA_fuel_enough (fuel : nat) (rise : R) :
  forall (s : Z) (r : R),
    (200 - s <= Z.of_nat fuel)%Z ->
    loopA fuel rise s r = loopA (Z.to_nat (200 - s)) rise s r.
Proof.
  induction fuel as [|fuel IH]; intros s r Hf.
  - replace (Z.to_nat (200 - s)) with O by lia. reflexivity.
  - cbn [loopA]. destruct (Js.gtb r 210 && (s <? 200)%Z) eqn:G.
    + assert (s < 200)%Z by (apply andb_true_iff in G; destruct G; unbool; lia).
      replace (Z.to_nat (200 - s)) with (S (Z.to_nat (200 - (s + 1)))) by lia.
      cbn [loopA]. rewrite G. apply IH. lia.
    + destruct (Z.to_nat (200 - s)); [reflexivity|]. cbn [loopA]. rewrite G. reflexivity.
Qed.

(** Loop A is monotone: more rise and more steps on entry give at least as
    many steps on exit. *)
Lemma loopA_mono (rise1 rise2 : R) (s1 s2 a1 a2 : Z) (r1 r2 ra1 ra2 : R) :
  0 < rise1 <= rise2 -> (1 <= s1 <= s2)%Z ->
  r1 = rise1 / IZR s1 -> r2 = rise2 / IZR s2 ->
  loopA (Z.to_nat (200 - s1)) rise1 s1 r1 = (a1, ra1) ->
  loopA (Z.to_nat (200 - s2)) rise2 s2 r2 = (a2, ra2) ->
  (a1 <= a2)%Z.
Proof.
  intros Hrise Hs Hr1 Hr2 H1 H2.
  destruct (loopA_spec _ _ _ _ _ _ H1 Hr1) as (Hle1 & Hra1 & Hprev1 & _).
  destruct (loopA_spec _ _ _ _ _ _ H2 Hr2) as (Hle2 & Hra2 & _ & Hexit2).
  destruct (Z_le_gt_dec a1 a2) as [|Hgt]; [assumption|exfalso].
  destruct Hprev1 as [->|[Ha1 Hp1]]; [lia|].
  destruct Hexit2 as [Hx|Hx]; [lia| |lia].
  assert (P2 : 0 < IZR a2) by (apply IZR_lt; lia).
  assert (P1 : 0 < IZR (a1 - 1)) by (apply IZR_lt; lia).
  assert (Hm : IZR a2 <= IZR (a1 - 1)) by (apply IZR_le; lia).
  subst ra2.
  pose proof (proj1 (div_le_iff _ _ _ P2) Hx).
  pose proof (proj1 (lt_div_iff _ _ _ P1) Hp1).
  nra.
Qed.

(** ** Loop B *)

(** What loop B establishes, for any fuel: the riser stays [rise / steps],
    steps are only removed and never below 1, a step is removed only
    because the riser before it was below 120; with [steps - 1] turns of
    fuel the loop has left through its guard. *)
Lemma loopB_spec (fuel : nat) (rise : R) :
  forall (s : Z) (r : R) (b : Z) (rb : R),
    loopB fuel rise s r = (b, rb) ->
    r = rise / IZR s -> (1 <= s)%Z ->
    (1 <= b <= s)%Z /\ rb = rise / IZR b /\
    (b = s \/ rise / IZR (b + 1) < 120) /\
    ((s - 1 <= Z.of_nat fuel)%Z -> 120 <= rb \/ b = 1%Z).
Proof.
  induction fuel as [|fuel IH]; intros s r b rb Hrun Hr Hs; cbn [loopB] in Hrun.
  - inversion Hrun; subst. split; [lia|]. split; [reflexivity|]. split; [auto|].
    intros Hf. right. lia.
  - destruct (Js.ltb r 120 && (s >? 1)%Z) eqn:G.
    + unbool.
      destruct (IH _ _ _ _ Hrun eq_refl) as (Hle & Hrb & Hprev & Hexit); [lia|].
      split; [lia|]. split; [assumption|]. split.
      * right. destruct Hprev as [->|Hp].
        -- replace (s - 1 + 1)%Z with s by lia. rewrite <- Hr. exact H.
        -- exact Hp.
      * intros Hf. apply Hexit. lia.
    + inversion Hrun; subst. split; [lia|]. split; [reflexivity|]. split; [auto|].
      intros _. apply andb_false_iff in G. destruct G as [G|G]; unbool; [left; lra|right; lia].
Qed.

(** Any two amounts of fuel of at least [steps - 1] give the same result. *)
Lemma loopB_fuel_enough (fuel1 : nat) (rise : R) :
  forall (fuel2 : nat) (s : Z) (r : R),
    (s - 1 <= Z.of_nat fuel1)%Z -> (s - 1 <= Z.of_nat fuel2)%Z ->
    loopB fuel1 rise s r = loopB fuel2 rise s r.
Proof.
  induction fuel1 as [|fuel1 IH]; intros fuel2 s r Hf1 Hf2.
  - destruct fuel2 as [|fuel2]; [reflexivity|]. cbn [loopB].
    destruct (Js.ltb r 120 && (s >? 1)%Z) eqn:G; [|reflexivity].
    unbool. lia.
  - cbn [loopB]. destruct (Js.ltb r 120 && (s >? 1)%Z) eqn:G.
    + assert (1 < s)%Z by (apply andb_true_iff in G; destruct G; unbool; lia).
      destruct fuel2 as [|fuel2]; [lia|]. cbn [loopB]. rewrite G.
      apply IH; lia.
    + destruct fuel2 as [|fuel2]; [reflexivity|]. cbn [loopB]. rewrite G. reflexivity.
Qed.

(** Loop B is monotone: more rise and more steps on entry give at least as
    many steps on exit. *)
Lemma loopB_mono (rise1 rise2 : R) (s1 s2 b1 b2 : Z) (r1 r2 rb1 rb2 : R) :
  0 < rise1 <= rise2 -> (1 <= s1 <= s2)%Z ->
  r1 = rise1 / IZR s1 -> r2 = rise2 / IZR s2 ->
  loopB (Z.to_nat s1) rise1 s1 r1 = (b1, rb1) ->
  loopB (Z.to_nat s2) rise2 s2 r2 = (b2, rb2) ->
  (b1 <= b2)%Z.
Proof.
  intros Hrise Hs Hr1 Hr2 H1 H2.
  destruct (loopB_spec _ _ _ _ _ _ H1 Hr1) as (Hle1 & Hrb1 & _ & Hexit1); [lia|].
  destruct (loopB_spec _ _ _ _ _ _ H2 Hr2) as (Hle2 & Hrb2 & Hprev2 & _); [lia|].
  destruct (Z_le_gt_dec b1 b2) as [|Hgt]; [assumption|exfalso].
  destruct Hprev2 as [->|Hp2]; [lia|].
  destruct Hexit1 as [Hx|Hx]; [lia| |lia].
  assert (P1 : 0 < IZR b1) by (apply IZR_lt; lia).
  assert (P2 : 0 < IZR (b2 + 1)) by (apply IZR_lt; lia).
  assert (Hm : IZR (b2 + 1) <= IZR b1) by (apply IZR_le; lia).
  subst rb1.
  pose proof (proj1 (le_div_iff _ _ _ P1) Hx).
  pose proof (proj1 (div_lt_iff _ _ _ P2) Hp2).
  nra.
Qed.

(** ** The step count before and after the loops *)

Lemma targetRiser_bounds (desiredRiser : option R) :
  120 <= Js.clamp (Js.or_default desiredRiser 170) 120 210 <= 210.
Proof. apply clamp_bounds. lra. Qed.

Lemma initialSteps_spec (totalRise : R) (desiredRiser : option R) (s : Z) (r : R) :
  initialSteps totalRise desiredRiser = (s, r) ->
  (1 <= s)%Z /\ r = Rmax 10 totalRise / IZR s.
Proof.
  unfold initialSteps. intros H. inversion H; subst. clear H.
  split; [|reflexivity].
  destruct (_ <? 1)%Z eqn:E; unbool; lia.
Qed.

Lemma initialSteps_mono (t1 t2 : R) (desiredRiser : option R) (s1 s2 : Z) (r1 r2 : R) :
  t1 <= t2 ->
  initialSteps t1 desiredRiser = (s1, r1) ->
  initialSteps t2 desiredRiser = (s2, r2) ->
  (s1 <= s2)%Z.
Proof.
  unfold initialSteps. intros Ht H1 H2. inversion H1; inversion H2; subst. clear H1 H2.
  pose proof (targetRiser_bounds desiredRiser) as Hb.
  set (t := Js.clamp (Js.or_default desiredRiser 170) 120 210) in *.
  assert (Hm : (Js.round (Rmax 10 t1 / t) <= Js.round (Rmax 10 t2 / t))%Z).
  { apply round_mono. pose proof (rise_mono _ _ Ht).
    apply Rmult_le_compat_r; [|assumption].
    apply Rlt_le, Rinv_0_lt_compat. lra. }
  destruct (_ <? 1)%Z eqn:E1; destruct (Js.round (Rmax 10 t2 / t) <? 1)%Z eqn:E2; unbool; lia.
Qed.

Lemma afterLoopA_spec (totalRise : R) (desiredRiser : option R) (a : Z) (ra : R) :
  afterLoopA totalRise desiredRiser = (a, ra) ->
  (1 <= a)%Z /\ ra = Rmax 10 totalRise / IZR a.
Proof.
  unfold afterLoopA. destruct (initialSteps totalRise desiredRiser) as [s r] eqn:E.
  intros H. destruct (initialSteps_spec _ _ _ _ E) as [Hs Hr].
  destruct (loopA_spec _ _ _ _ _ _ H Hr) as (Hle & Hra & _ & _).
  split; [lia|assumption].
Qed.

Lemma afterLoopB_spec (totalRise : R) (desiredRiser : option R) (b : Z) (rb : R) :
  afterLoopB totalRise desiredRiser = (b, rb) ->
  (1 <= b)%Z /\ rb = Rmax 10 totalRise / IZR b.
Proof.
  unfold afterLoopB. destruct (afterLoopA totalRise desiredRiser) as [a ra] eqn:E.
  intros H. destruct (afterLoopA_spec _ _ _ _ E) as [Ha Hra].
  destruct (loopB_spec _ _ _ _ _ _ H Hra Ha) as (Hle & Hrb & _ & _).
  split; [lia|assumption].
Qed.

Lemma afterLoopB_mono (t1 t2 : R) (desiredRiser : option R) :
  t1 <= t2 ->
  (fst (afterLoopB t1 desiredRiser) <= fst (afterLoopB t2 desiredRiser))%Z.
Proof.
  intros Ht. unfold afterLoopB.
  destruct (afterLoopA t1 desiredRiser) as [a1 ra1] eqn:EA1.
  destruct (afterLoopA t2 desiredRiser) as [a2 ra2] eqn:EA2.
  destruct (afterLoopA_spec _ _ _ _ EA1) as [Ha1 Hra1].
  destruct (afterLoopA_spec _ _ _ _ EA2) as [Ha2 Hra2].
  assert (Hrise : 0 < Rmax 10 t1 <= Rmax 10 t2).
  { pose proof (rise_ge_10 t1). pose proof (rise_mono _ _ Ht). lra. }
  assert (Ha : (a1 <= a2)%Z).
  { unfold afterLoopA in EA1, EA2.
    destruct (initialSteps t1 desiredRiser) as [s1 r1] eqn:E1.
    destruct (initialSteps t2 desiredRiser) as [s2 r2] eqn:E2.
    destruct (initialSteps_spec _ _ _ _ E1) as [Hs1 Hr1].
    destruct (initialSteps_spec _ _ _ _ E2) as [Hs2 Hr2].
    pose proof (initialSteps_mono _ _ _ _ _ _ _ Ht E1 E2).
    apply (loopA_mono _ _ s1 s2 a1 a2 r1 r2 ra1 ra2 Hrise); auto; lia. }
  destruct (loopB _ (Rmax 10 t1) a1 ra1) as [b1 rb1] eqn:EB1.
  destruct (loopB _ (Rmax 10 t2) a2 ra2) as [b2 rb2] eqn:EB2.
  simpl. apply (loopB_mono _ _ a1 a2 b1 b2 ra1 ra2 rb1 rb2 Hrise); auto; lia.
Qed.

(** When the band can be reached with at most 200 steps, the two loops
    reach it. *)
Lemma afterLoopB_band (totalRise : R) (desiredRiser : option R) (b : Z) (rb : R) :
  afterLoopB totalRise desiredRiser = (b, rb) ->
  achievable (Rmax 10 totalRise) ->
  120 <= rb <= 210.
Proof.
  unfold afterLoopB, afterLoopA.
  destruct (initialSteps totalRise desiredRiser) as [s0 r0] eqn:E0.
  destruct (initialSteps_spec _ _ _ _ E0) as [Hs0 Hr0].
  set (rise := Rmax 10 totalRise) in *.
  destruct (loopA _ rise s0 r0) as [a ra] eqn:EA.
  destruct (loopA_spec _ _ _ _ _ _ EA Hr0) as (HleA & Hra & _ & HexitA).
  intros EB (s & Hs & Hlo & Hhi).
  destruct (loopB_spec _ _ _ _ _ _ EB Hra) as (HleB & Hrb & HprevB & HexitB); [lia|].
  assert (Ps : 0 < IZR s) by (apply IZR_lt; lia).
  assert (Pa : 0 < IZR a) by (apply IZR_lt; lia).
  assert (Pb : 0 < IZR b) by (apply IZR_lt; lia).
  assert (Pb1 : 0 < IZR (b + 1)) by (apply IZR_lt; lia).
  apply (proj1 (le_div_iff _ _ _ Ps)) in Hlo.
  apply (proj1 (div_le_iff _ _ _ Ps)) in Hhi.
  assert (Hs200 : IZR s <= 200) by (apply IZR_le; lia).
  assert (Hs1 : 1 <= IZR s) by (apply IZR_le; lia).
  assert (HA : ra <= 210).
  { destruct HexitA as [H|H]; [lia|assumption|].
    apply IZR_le in H. rewrite Hra. apply div_le_iff; [assumption|]. lra. }
  rewrite Hrb. split.
  - destruct HexitB as [H|H]; [lia|rewrite <- Hrb; assumption|].
    subst b. apply le_div_iff; [assumption|]. lra.
  - destruct HprevB as [->|Hp]; [rewrite <- Hra; assumption|].
    apply (proj1 (div_lt_iff _ _ _ Pb1)) in Hp.
    rewrite plus_IZR in Hp. apply div_le_iff; [assumption|].
    destruct (Z.eq_dec b 1) as [->|Hb1].
    + destruct (Z.eq_dec s 1) as [->|Hne]; [lra|].
      assert (2 <= IZR s) by (apply IZR_le; lia). lra.
    + assert (2 <= IZR b) by (apply IZR_le; lia). lra.
Qed.

(** The guards of both loops are false on exit, and loop A adds steps only
    up to 200. *)
Lemma loops_exit (totalRise : R) (desiredRiser : option R) :
  let s0 := fst (initialSteps totalRise desiredRiser) in
  let '(a, ra) := afterLoopA totalRise desiredRiser in
  let '(b, rb) := afterLoopB totalRise desiredRiser in
  Js.gtb ra 210 && (a <? 200)%Z = false /\
  Js.ltb rb 120 && (b >? 1)%Z = false /\
  (a = s0 \/ (a <= 200)%Z).
Proof.
  unfold afterLoopB, afterLoopA.
  destruct (initialSteps totalRise desiredRiser) as [s0 r0] eqn:E0.
  destruct (initialSteps_spec _ _ _ _ E0) as [Hs0 Hr0].
  set (rise := Rmax 10 totalRise) in *.
  destruct (loopA _ rise s0 r0) as [a ra] eqn:EA.
  destruct (loopA_spec _ _ _ _ _ _ EA Hr0) as (HleA & Hra & HprevA & HexitA).
  destruct (loopB _ rise a ra) as [b rb] eqn:EB.
  destruct (loopB_spec _ _ _ _ _ _ EB Hra) as (HleB & Hrb & _ & HexitB); [lia|].
  simpl. split; [|split].
  - apply andb_false_iff. destruct HexitA as [H|H]; [lia| |].
    + left. apply gtb_false. exact H.
    + right. apply Z.ltb_ge. exact H.
  - apply andb_false_iff. destruct HexitB as [H|H]; [lia| |].
    + left. apply ltb_false. exact H.
    + right. rewrite Z.gtb_ltb. apply Z.ltb_ge. lia.
  - destruct HprevA as [H|[H _]]; auto.
Qed.

(** ** The fields of the unrounded geometry *)

Lemma steps_body (totalRise : R) (desiredRiser desiredTread : option R)
    (stairType : string) (landingDepth : option R) :
  steps (stairsBody totalRise desiredRiser desiredTread stairType landingDepth)
  = fst (afterLoopB totalRise desiredRiser).
Proof. unfold stairsBody. destruct (afterLoopB _ _). reflexivity. Qed.

Lemma riser_body (totalRise : R) (desiredRiser desiredTread : option R)
    (stairType : string) (landingDepth : option R) :
  riser (stairsBody totalRise desiredRiser desiredTread stairType landingDepth)
  = snd (afterLoopB totalRise desiredRiser).
Proof. unfold stairsBody. destruct (afterLoopB _ _). reflexivity. Qed.

Lemma tread_body (totalRise : R) (desiredRiser desiredTread : option R)
    (stairType : string) (landingDepth : option R) :
  let g := stairsBody totalRise desiredRiser desiredTread stairType landingDepth in
  let t := Js.clamp (Js.or_default desiredTread (600 - 2 * riser g)) 160 400 in
  tread g = if String.eqb stairType "spiral" then Rmin t 240 else t.
Proof. unfold stairsBody. destruct (afterLoopB _ _). reflexivity. Qed.

Lemma totalRun_body (totalRise : R) (desiredRiser desiredTread : option R)
    (stairType : string) (landingDepth : option R) :
  let g := stairsBody totalRise desiredRiser desiredTread stairType landingDepth in
  totalRun g =
    if String.eqb stairType "l" || String.eqb stairType "u"
    then tread g * IZR (steps g) + landingOr900 landingDepth
    else tread g * IZR (steps g).
Proof. unfold stairsBody. destruct (afterLoopB _ _). reflexivity. Qed.

Lemma stringerLength_body (totalRise : R) (desiredRiser desiredTread : option R)
    (stairType : string) (landingDepth : option R) :
  let g := stairsBody totalRise desiredRiser desiredTread stairType landingDepth in
  stringerLength g
  = sqrt (totalRun g * totalRun g + Rmax 10 totalRise * Rmax 10 totalRise).
Proof. unfold stairsBody. destruct (afterLoopB _ _). reflexivity. Qed.

Lemma angleDeg_body (totalRise : R) (desiredRiser desiredTread : option R)
    (stairType : string) (landingDepth : option R) :
  let g := stairsBody totalRise desiredRiser desiredTread stairType landingDepth in
  angleDeg g = Js.atan2 (Rmax 10 totalRise) (totalRun g) * 180 / PI.
Proof. unfold stairsBody. destruct (afterLoopB _ _). reflexivity. Qed.

Lemma tread_bounds (totalRise : R) (desiredRiser desiredTread : option R)
    (stairType : string) (landingDepth : option R) :
  160 <= tread (stairsBody totalRise desiredRiser desiredTread stairType landingDepth) <= 400.
Proof.
  rewrite tread_body. cbv zeta.
  match goal with |- context [Js.clamp ?v 160 400] =>
    pose proof (clamp_bounds v 160 400 ltac:(lra)) as Hc;
    set (t := Js.clamp v 160 400) in *
  end.
  destruct (String.eqb stairType "spiral"); [|exact Hc].
  unfold Rmin. destruct (Rle_dec t 240); lra.
Qed.

(** ** Evaluating the engine on a concrete input *)

(** A loop whose guard is false on entry does nothing. *)
Lemma loopA_skip (fuel : nat) (rise : R) (s : Z) (r : R) :
  Js.gtb r 210 && (s <? 200)%Z = false -> loopA fuel rise s r = (s, r).
Proof. intros G. destruct fuel; cbn [loopA]; [|rewrite G]; reflexivity. Qed.

Lemma loopB_skip (fuel : nat) (rise : R) (s : Z) (r : R) :
  Js.ltb r 120 && (s >? 1)%Z = false -> loopB fuel rise s r = (s, r).
Proof. intros G. destruct fuel; cbn [loopB]; [|rewrite G]; reflexivity. Qed.

(** With the rounded quotient already in the band, both loops are skipped. *)
Lemma afterLoopB_in_band (totalRise : R) (desiredRiser : option R) (s : Z) (r : R) :
  initialSteps totalRise desiredRiser = (s, r) ->
  120 <= r <= 210 ->
  afterLoopB totalRise desiredRiser = (s, r).
Proof.
  intros E Hr. unfold afterLoopB, afterLoopA. rewrite E.
  rewrite loopA_skip, loopB_skip; [reflexivity| |].
  - apply andb_false_iff. left. apply ltb_false. lra.
  - apply andb_false_iff. left. apply gtb_false. lra.
Qed.

Lemma or_default_some (v d : R) : v <> 0 -> Js.or_default (Some v) d = v.
Proof. intros H. unfold Js.or_default. apply truthy_true in H. rewrite H. reflexivity. Qed.

Lemma or_default_zero (d : R) : Js.or_default (Some 0) d = d.
Proof.
  unfold Js.or_default. assert (H : Js.truthy 0 = false) by (apply truthy_false; reflexivity).
  rewrite H. reflexivity.
Qed.

(** Scenario A up to the loops: a rise of 2700 with a wish of 170 gives 16
    steps of 168.75. *)
Lemma scenario_steps : afterLoopB 2700 (Some 170) = (16%Z, 2700 / 16).
Proof.
  apply afterLoopB_in_band; [|lra].
  unfold initialSteps. rewrite rise_id by lra.
  rewrite or_default_some by lra. rewrite clamp_id by lra.
  rewrite (round_unique (2700 / 170) 16) by lra.
  reflexivity.
Qed.

(** ** The riser band *)

(** The riser band in exact arithmetic.  For a total rise of at least 10
    the model returns at least one step; the riser before rounding is the
    total rise divided by the step count; if some step count between 1 and
    200 puts that quotient into [120, 210], the riser before rounding is in
    [120, 210].  Over the reals both loops terminate: the turns of loop A
    are bounded by [200 - steps] and those of loop B by [steps - 1] (more
    fuel gives the same result), each loop is left with its guard false,
    and loop A either adds nothing or stops at 200 steps at the latest.
    The termination of loop B does not carry over to binary64 (last
    section). *)
Lemma riser_band (totalRise : R) (desiredRiser desiredTread : option R)
    (stairType : string) (landingDepth : option R) :
  10 <= totalRise ->
  let g := stairsBody totalRise desiredRiser desiredTread stairType landingDepth in
  let out := calculateStairs totalRise desiredRiser desiredTread stairType landingDepth in
  let '(s0, r0) := initialSteps totalRise desiredRiser in
  let '(a, ra) := afterLoopA totalRise desiredRiser in
  let '(b, rb) := afterLoopB totalRise desiredRiser in
  (1 <= steps out)%Z /\
  steps out = b /\ riser g = rb /\
  riser g = totalRise / IZR (steps out) /\
  (achievable totalRise -> 120 <= riser g <= 210) /\
  (forall fuel : nat, (200 - s0 <= Z.of_nat fuel)%Z ->
     loopA fuel totalRise s0 r0 = (a, ra)) /\
  (forall fuel : nat, (a - 1 <= Z.of_nat fuel)%Z ->
     loopB fuel totalRise a ra = (b, rb)) /\
  Js.gtb ra 210 && (a <? 200)%Z = false /\
  Js.ltb rb 120 && (b >? 1)%Z = false /\
  (a = s0 \/ (a <= 200)%Z).
Proof.
  intros Hrise. cbv zeta.
  pose proof (loops_exit totalRise desiredRiser) as Hexit.
  pose proof (afterLoopB_band totalRise desiredRiser) as Hband.
  pose proof (afterLoopB_spec totalRise desiredRiser) as HB.
  assert (Hsteps : steps (calculateStairs totalRise desiredRiser desiredTread stairType landingDepth)
                   = fst (afterLoopB totalRise desiredRiser)) by apply steps_body.
  rewrite Hsteps, riser_body. clear Hsteps.
  assert (HA : afterLoopA totalRise desiredRiser =
               let '(s0, r0) := initialSteps totalRise desiredRiser in
               loopA (Z.to_nat (200 - s0)) (Rmax 10 totalRise) s0 r0) by reflexivity.
  assert (HBdef : afterLoopB totalRise desiredRiser =
               let '(a, ra) := afterLoopA totalRise desiredRiser in
               loopB (Z.to_nat a) (Rmax 10 totalRise) a ra) by reflexivity.
  rewrite (rise_id totalRise Hrise) in *.
  destruct (initialSteps totalRise desiredRiser) as [s0 r0].
  destruct (afterLoopA totalRise desiredRiser) as [a ra].
  destruct (afterLoopB totalRise desiredRiser) as [b rb].
  cbn [fst snd] in *. destruct (HB b rb eq_refl) as [Hb Hrb].
  destruct Hexit as (GA & GB & H200).
  repeat (split; [solve [auto]|]).
  split; [|split; [|split; [|auto]]].
  - apply (Hband b rb eq_refl).
  - intros fuel Hf. rewrite HA. apply loopA_fuel_enough. exact Hf.
  - intros fuel Hf. rewrite HBdef. apply loopB_fuel_enough; lia.
Qed.

(** [riser_band] on scenario A, where 16 steps reach the band. *)
Lemma riser_band_witness :
  (1 <= steps (calculateStairs 2700 (Some 170) (Some 280) "straight" None)%R)%Z /\
  120 <= riser (stairsBody 2700 (Some 170) (Some 280) "straight" None) <= 210.
Proof.
  pose proof (riser_band 2700 (Some 170) (Some 280) "straight" None ltac:(lra)) as H.
  cbv zeta in H.
  destruct (initialSteps 2700 (Some 170)) as [s0 r0].
  destruct (afterLoopA 2700 (Some 170)) as [a ra].
  destruct (afterLoopB 2700 (Some 170)) as [b rb].
  destruct H as (Hsteps & _ & _ & _ & Hband & _).
  split; [exact Hsteps|].
  apply Hband. exists 16%Z. split; [lia|lra].
Defined.

(** ** Monotonicity of the step count *)

(** C5.  With the other arguments fixed, a larger total rise never gives
    fewer steps. *)
Theorem steps_monotone (totalRise1 totalRise2 : R) (desiredRiser desiredTread : option R)
    (stairType : string) (landingDepth : option R) :
  totalRise1 <= totalRise2 ->
  (steps (calculateStairs totalRise1 desiredRiser desiredTread stairType landingDepth)
   <= steps (calculateStairs totalRise2 desiredRiser desiredTread stairType landingDepth))%Z.
Proof.
  intros H. unfold calculateStairs, roundGeometry. cbn [steps].
  rewrite !steps_body. apply afterLoopB_mono. exact H.
Qed.

Lemma steps_monotone_witness :
  (steps (calculateStairs 1000 (Some 170) None "straight" None)%R
   <= steps (calculateStairs 2700 (Some 170) None "straight" None)%R)%Z.
Proof. apply steps_monotone. lra. Defined.

(** ** The spiral cap *)

(** C6.  For a spiral stair the returned tread is at most 240, whatever
    tread was asked for. *)
Theorem spiral_tread_cap (totalRise : R) (desiredRiser desiredTread landingDepth : option R) :
  tread (calculateStairs totalRise desiredRiser desiredTread "spiral" landingDepth) <= 240.
Proof.
  unfold calculateStairs, roundGeometry. cbn [tread].
  pose proof (tread_bounds totalRise desiredRiser desiredTread "spiral" landingDepth) as Hb.
  assert (Hc : tread (stairsBody totalRise desiredRiser desiredTread "spiral" landingDepth) <= 240).
  { rewrite tread_body. cbv zeta. cbn [String.eqb Ascii.eqb Bool.eqb]. apply Rmin_r. }
  replace 240 with (IZR 2400 / 10) by lra.
  apply toFixed1_le; lra.
Qed.

(** ** A wish of zero *)

(** C8.  A desired riser of 0 gives the same geometry as no desired riser,
    and both give the geometry of a desired riser of 170: the zero is
    "no preference", the target riser is then the default 170, which the
    clamp to [120, 210] leaves alone, so that the step count before the
    loops is the rounded quotient of the effective rise by 170 (at least
    1). *)
Theorem zero_riser_is_absent (totalRise : R) (desiredTread : option R)
    (stairType : string) (landingDepth : option R) :
  calculateStairs totalRise (Some 0) desiredTread stairType landingDepth
  = calculateStairs totalRise None desiredTread stairType landingDepth
  /\ calculateStairs totalRise None desiredTread stairType landingDepth
     = calculateStairs totalRise (Some 170) desiredTread stairType landingDepth
  /\ initialSteps totalRise (Some 0) = initialSteps totalRise None
  /\ initialSteps totalRise None
     = (let n := Js.round (Rmax 10 totalRise / 170) in
        let steps := if (n <? 1)%Z then 1%Z else n in
        (steps, Rmax 10 totalRise / IZR steps))
  /\ Js.or_default (Some 0) 170 = 170
  /\ Js.or_default None 170 = 170
  /\ Js.clamp 170 120 210 = 170.
Proof.
  assert (Hc : Js.clamp 170 120 210 = 170) by (apply clamp_id; lra).
  assert (E0 : initialSteps totalRise (Some 0) = initialSteps totalRise None).
  { unfold initialSteps. rewrite or_default_zero. reflexivity. }
  assert (E170 : initialSteps totalRise None = initialSteps totalRise (Some 170)).
  { unfold initialSteps. rewrite or_default_some by lra. reflexivity. }
  split; [|split; [|split; [exact E0|split; [|split;
    [apply or_default_zero|split; [reflexivity|exact Hc]]]]]].
  - unfold calculateStairs, stairsBody, afterLoopB, afterLoopA. rewrite E0. reflexivity.
  - unfold calculateStairs, stairsBody, afterLoopB, afterLoopA. rewrite E170. reflexivity.
  - unfold initialSteps. cbn [Js.or_default]. rewrite Hc. reflexivity.
Qed.

(** ** Scenarios A and B *)

Lemma ten_pow_21 : 10 ^ 21 = 1000000000000000000000.
Proof. simpl. lra. Qed.

(** Evaluates [+x.toFixed(1)] to [n / 10] on a closed, non-negative [x]. *)
Ltac fixed1 n :=
  rewrite (toFixed1_value _ n) by (rewrite ?ten_pow_21; lra).

(** The first fields of scenario A, which no stair type but [spiral]
    changes. *)
Lemma scenario_body (stairType : string) (landingDepth : option R) :
  String.eqb stairType "spiral" = false ->
  let g := stairsBody 2700 (Some 170) (Some 280) stairType landingDepth in
  steps g = 16%Z /\ riser g = 2700 / 16 /\ tread g = 280.
Proof.
  intros Hs. cbv zeta. rewrite steps_body, riser_body, tread_body. cbv zeta.
  rewrite riser_body, scenario_steps, Hs. cbn [fst snd].
  rewrite or_default_some by lra. rewrite clamp_id by lra. auto.
Qed.

Lemma landingOr900_spec (landingDepth : option R) :
  landingOr900 landingDepth = landingPerSpec landingDepth.
Proof.
  unfold landingOr900, landingPerSpec. destruct landingDepth as [d|]; [|reflexivity].
  destruct (Rlt_dec 0 d) as [Hd|Hd].
  - assert (E1 : Js.truthy d = true) by (apply truthy_true; lra).
    assert (E2 : Js.gtb d 0 = true) by (apply gtb_true; lra).
    rewrite E1, E2. reflexivity.
  - assert (E2 : Js.gtb d 0 = false) by (apply gtb_false; lra).
    rewrite E2, andb_false_r. reflexivity.
Qed.

(** C7.  For an l-shaped or u-shaped stair the total run before rounding is
    tread times steps plus the landing depth when that is a positive
    number, and plus 900 otherwise (zero, negative or missing).  Scenario
    B, [calculateStairs(2700, 170, 280, 'l', 900)], returns a total run of
    5380 with the steps, riser and tread of scenario A (16, 168.8, 280). *)
Theorem landing_run (totalRise : R) (desiredRiser desiredTread : option R)
    (stairType : string) (landingDepth : option R) :
  stairType = "l"%string \/ stairType = "u"%string ->
  let g := stairsBody totalRise desiredRiser desiredTread stairType landingDepth in
  let A := calculateStairs 2700 (Some 170) (Some 280) "straight" None in
  let B := calculateStairs 2700 (Some 170) (Some 280) "l" (Some 900) in
  totalRun g = tread g * IZR (steps g) + landingPerSpec landingDepth /\
  (forall d : R, landingDepth = Some d -> 0 < d ->
     totalRun g = tread g * IZR (steps g) + d) /\
  (forall d : R, landingDepth = Some d -> d <= 0 ->
     totalRun g = tread g * IZR (steps g) + 900) /\
  (landingDepth = None -> totalRun g = tread g * IZR (steps g) + 900) /\
  totalRun B = 5380 /\
  steps B = steps A /\ riser B = riser A /\ tread B = tread A /\
  steps B = 16%Z /\ riser B = 1688 / 10 /\ tread B = 280.
Proof.
  intros Ht. cbv zeta.
  assert (Hrun : totalRun (stairsBody totalRise desiredRiser desiredTread stairType landingDepth)
    = tread (stairsBody totalRise desiredRiser desiredTread stairType landingDepth)
      * IZR (steps (stairsBody totalRise desiredRiser desiredTread stairType landingDepth))
      + landingPerSpec landingDepth).
  { rewrite totalRun_body. cbv zeta. rewrite landingOr900_spec.
    destruct Ht as [-> | ->]; reflexivity. }
  split; [exact Hrun|]. split; [|split; [|split]].
  - intros d -> Hd. rewrite Hrun. unfold landingPerSpec.
    destruct (Rlt_dec 0 d); [reflexivity|contradiction].
  - intros d -> Hd. rewrite Hrun. unfold landingPerSpec.
    destruct (Rlt_dec 0 d); [lra|reflexivity].
  - intros ->. exact Hrun.
  - destruct (scenario_body "straight" None eq_refl) as (SA & RA & TA).
    destruct (scenario_body "l" (Some 900) eq_refl) as (SB & RB & TB).
    unfold calculateStairs, roundGeometry. cbn [steps riser tread totalRun].
    rewrite totalRun_body. cbv zeta. rewrite landingOr900_spec.
    rewrite SA, RA, TA, SB, RB, TB. cbn [String.eqb Ascii.eqb Bool.eqb orb landingPerSpec].
    destruct (Rlt_dec 0 900); [|lra].
    fixed1 53800%Z. fixed1 1688%Z. fixed1 2800%Z.
    repeat split; lra.
Qed.

Lemma landing_run_witness :
  let g := stairsBody 2700 (Some 170) (Some 280) "u" (Some 0) in
  totalRun g = tread g * IZR (steps g) + 900.
Proof.
  pose proof (landing_run 2700 (Some 170) (Some 280) "u" (Some 0) (or_intror eq_refl)) as H.
  cbv zeta in H. destruct H as (_ & _ & H & _).
  apply (H 0 eq_refl). lra.
Defined.

(** ** Enclosures of the arctangent and of pi *)

(** The partial sums of the arctangent series enclose the arctangent. *)
Lemma atan_enclosure (x : R) (N : nat) :
  0 < x < 1 ->
  sum_f_R0 (tg_alt (Ratan_seq x)) (S (2 * N)) <= atan x
    <= sum_f_R0 (tg_alt (Ratan_seq x)) (2 * N).
Proof.
  intros Hx. rewrite atan_eq_ps_atan by exact Hx. unfold ps_atan.
  destruct (Ratan.in_int x) as [Hin|Hout]; [|exfalso; apply Hout; lra].
  destruct (ps_atan_exists_1 x Hin) as [v Hv].
  apply alternated_series_ineq.
  - apply Ratan_seq_decreasing. lra.
  - apply Ratan_seq_converging. lra.
  - exact Hv.
Qed.

Lemma PI_enclosure : 31415 / 10000 <= PI <= 31421 / 10000.
Proof.
  pose proof (PI_2_3_7_ineq 1) as [Hlo Hhi].
  unfold PI_2_3_7_tg, tg_alt, Ratan_seq in Hlo, Hhi. simpl in Hlo, Hhi. lra.
Qed.

(** The slope of scenario A, [2700 / 4480 = 135 / 224]. *)
Lemma atan_scenario : 5423 / 10000 <= atan (135 / 224) <= 5427 / 10000.
Proof.
  pose proof (atan_enclosure (135 / 224) 2 ltac:(lra)) as [Hlo Hhi].
  unfold tg_alt, Ratan_seq in Hlo, Hhi. simpl in Hlo, Hhi. lra.
Qed.

Lemma atan2_pos (y x : R) : 0 < x -> Js.atan2 y x = atan (y / x).
Proof. intros H. unfold Js.atan2. destruct (Rlt_dec 0 x); [reflexivity|contradiction]. Qed.

(** The angle of scenario A before rounding, in degrees. *)
Lemma angle_scenario :
  3105 / 100 <= Js.atan2 2700 4480 * 180 / PI < 3115 / 100.
Proof.
  rewrite atan2_pos by lra.
  replace (2700 / 4480) with (135 / 224) by lra.
  pose proof PI_enclosure as [P1 P2]. pose proof atan_scenario as [A1 A2].
  assert (Ppos : 0 < PI) by lra.
  split.
  - apply le_div_iff; [assumption|]. lra.
  - apply div_lt_iff; [assumption|]. lra.
Qed.

(** ** The norm checker on concrete records *)

(** Decides every comparison of the goal whose sides are closed numbers. *)
Ltac decide_cmp :=
  unfold Js.gtb;
  repeat match goal with
  | |- context [Js.ltb ?a ?b] =>
      first [ replace (Js.ltb a b) with true by (symmetry; apply ltb_true; lra)
            | replace (Js.ltb a b) with false by (symmetry; apply ltb_false; lra) ]
  end.

(** C3.  Scenario A: [calculateStairs(2700, 170, 280, 'straight', undefined)]
    returns 16 steps, a riser of 168.8, a tread of 280, a total run of 4480
    and an angle of 31.1 degrees (the angle before rounding lies between
    31.05 and 31.15), and [checkNorms] on that result returns no warning;
    the Blondel sum is 617.6. *)
Theorem scenario_A (toString : R -> string) :
  let g := calculateStairs 2700 (Some 170) (Some 280) "straight" None in
  steps g = 16%Z /\ riser g = 1688 / 10 /\ tread g = 280 /\ totalRun g = 4480 /\
  angleDeg g = 311 / 10 /\
  3105 / 100 <= angleDeg (stairsBody 2700 (Some 170) (Some 280) "straight" None) < 3115 / 100 /\
  2 * riser g + tread g = 6176 / 10 /\
  checkNorms toString g = [].
Proof.
  cbv zeta.
  destruct (scenario_body "straight" None eq_refl) as (Hs & Hr & Ht).
  assert (Run : totalRun (stairsBody 2700 (Some 170) (Some 280) "straight" None) = 4480).
  { rewrite totalRun_body. cbv zeta. rewrite Hs, Ht. cbn [String.eqb Ascii.eqb Bool.eqb orb]. lra. }
  assert (Ang : 3105 / 100 <= angleDeg (stairsBody 2700 (Some 170) (Some 280) "straight" None)
                < 3115 / 100).
  { rewrite angleDeg_body. cbv zeta. rewrite Run, rise_id by lra. exact angle_scenario. }
  assert (ER : riser (calculateStairs 2700 (Some 170) (Some 280) "straight" None) = 1688 / 10).
  { unfold calculateStairs, roundGeometry. cbn [riser]. rewrite Hr. fixed1 1688%Z. reflexivity. }
  assert (ET : tread (calculateStairs 2700 (Some 170) (Some 280) "straight" None) = 280).
  { unfold calculateStairs, roundGeometry. cbn [tread]. rewrite Ht. fixed1 2800%Z. lra. }
  assert (EA : angleDeg (calculateStairs 2700 (Some 170) (Some 280) "straight" None) = 311 / 10).
  { unfold calculateStairs, roundGeometry. cbn [angleDeg]. fixed1 311%Z. reflexivity. }
  split; [exact Hs|]. split; [exact ER|]. split; [exact ET|]. split.
  { unfold calculateStairs, roundGeometry. cbn [totalRun]. rewrite Run. fixed1 44800%Z. lra. }
  split; [exact EA|]. split; [exact Ang|]. split; [rewrite ER, ET; lra|].
  unfold checkNorms. cbv zeta. rewrite ER, ET, EA. decide_cmp. reflexivity.
Qed.

(** C4.  For a record with a riser of 100, a tread of 200 and an angle of
    50, [checkNorms] returns exactly the messages of checks 1, 2, 4, 5 and
    6, in that order; check 3 does not fire, and check 5 reports the sum
    [2 * 100 + 200 = 400], which is below 550. *)
Theorem warning_order (toString : R -> string) (n : Z) (run len : R) :
  checkNorms toString (mkGeometry n 100 200 run len 50)
  = [ warnRiserBelow120; warnRiserBelow150; warnTreadBelow240;
      warnBlondel toString 400; warnAngle toString 50 ]
  /\ Js.round (2 * 100 + 200) = 400%Z
  /\ Js.gtb 100 200 = false
  /\ Js.ltb (2 * 100 + 200) 550 = true.
Proof.
  split; [|split; [apply round_unique; lra|split; [apply gtb_false; lra|apply ltb_true; lra]]].
  unfold checkNorms. cbv zeta. cbn [riser tread angleDeg].
  replace (2 * 100 + 200) with 400 by lra.
  decide_cmp. reflexivity.
Qed.

(** ** The shape of every warning list *)

Lemma subseq_length {A : Type} (l m : list A) :
  subseq l m -> (length l <= length m)%nat.
Proof. induction 1; simpl; lia. Qed.

Lemma subseq_In {A : Type} (l m : list A) (x : A) :
  subseq l m -> In x l -> In x m.
Proof.
  induction 1; simpl; intros Hin; auto.
  destruct Hin as [->|Hin]; auto.
Qed.

Lemma subseq_NoDup {A : Type} (l m : list A) :
  subseq l m -> NoDup m -> NoDup l.
Proof.
  induction 1; intros Hm; auto.
  - inversion Hm; subst. auto.
  - inversion Hm; subst. constructor; auto.
    intros Hin. apply H2. eapply subseq_In; eassumption.
Qed.

Lemma subseq_Forall {A : Type} (P : A -> Prop) (l m : list A) :
  subseq l m -> Forall P m -> Forall P l.
Proof.
  induction 1; intros Hm; auto; inversion Hm; subst; auto.
Qed.

(** The six messages of one record are pairwise different: they differ in
    their fixed text, whatever the numbers printed inside. *)
Lemma allWarnings_NoDup (toString : R -> string) (g : Geometry) :
  NoDup (allWarnings toString g).
Proof.
  unfold allWarnings, warnRiserBelow120, warnRiserBelow150, warnRiserAbove200,
    warnTreadBelow240, warnBlondel, warnAngle.
  repeat (constructor; [cbn [In String.append]; intuition discriminate|]).
  constructor.
Qed.

Lemma allWarnings_templates (toString : R -> string) (g : Geometry) :
  Forall (isTemplate toString) (allWarnings toString g).
Proof.
  unfold allWarnings, isTemplate.
  repeat (constructor; [solve [eauto 10]|]). constructor.
Qed.

Lemma checkNorms_subseq (toString : R -> string) (g : Geometry) :
  subseq (checkNorms toString g) (allWarnings toString g).
Proof.
  unfold checkNorms, allWarnings. cbv zeta.
  destruct (Js.ltb (riser g) 120); destruct (Js.ltb (riser g) 150);
    destruct (Js.gtb (riser g) 200); destruct (Js.ltb (tread g) 240);
    destruct (Js.ltb (2 * riser g + tread g) 550 || Js.gtb (2 * riser g + tread g) 700);
    destruct (Js.gtb (angleDeg g) 45);
    cbn [pushIf app];
    repeat first [apply subseq_nil | apply subseq_keep | apply subseq_skip].
Qed.

(** C9.  For every record the list returned by [checkNorms] is a
    subsequence of the six messages in the order of their checks: it has at
    most six entries, no entry twice, only entries made from the six
    templates, and its entries come in check order. *)
Theorem warnings_shape (toString : R -> string) (g : Geometry) :
  subseq (checkNorms toString g) (allWarnings toString g) /\
  (length (checkNorms toString g) <= 6)%nat /\
  NoDup (checkNorms toString g) /\
  NoDup (allWarnings toString g) /\
  Forall (isTemplate toString) (checkNorms toString g).
Proof.
  pose proof (checkNorms_subseq toString g) as H.
  split; [exact H|]. split; [exact (subseq_length _ _ H)|].
  split; [exact (subseq_NoDup _ _ H (allWarnings_NoDup toString g))|].
  split; [apply allWarnings_NoDup|].
  exact (subseq_Forall _ _ _ H (allWarnings_templates toString g)).
Qed.

(** C10.  Two records with the same riser, tread and angle get the same
    warnings: [checkNorms] does not look at the steps, the total run or the
    stringer length. *)
Theorem warnings_depend_on_three_fields (toString : R -> string) (g1 g2 : Geometry) :
  riser g1 = riser g2 -> tread g1 = tread g2 -> angleDeg g1 = angleDeg g2 ->
  checkNorms toString g1 = checkNorms toString g2.
Proof.
  intros Hr Ht Ha. unfold checkNorms. rewrite Hr, Ht, Ha. reflexivity.
Qed.

Lemma warnings_depend_on_three_fields_witness :
  checkNorms (fun _ => "?"%string) (mkGeometry 16 100 200 4480 5230 50)
  = checkNorms (fun _ => "?"%string) (mkGeometry 1 100 200 0 7 50).
Proof.
  apply warnings_depend_on_three_fields; reflexivity.
Defined.

(** ** The stringer as a hypotenuse *)

Lemma hyp_ge_leg (b c : R) : Rabs b <= sqrt (b * b + c * c).
Proof.
  assert (H : 0 <= b * b + c * c) by nra.
  pose proof (sqrt_pos (b * b + c * c)) as P.
  pose proof (sqrt_sqrt _ H) as E.
  set (B := sqrt (b * b + c * c)) in *.
  apply Rabs_le. split; nra.
Qed.

(** Moving one leg by [d] moves the hypotenuse by at most [d]. *)
Lemma hyp_step (a b c : R) :
  sqrt (a * a + c * c) <= sqrt (b * b + c * c) + Rabs (a - b).
Proof.
  pose proof (hyp_ge_leg b c) as Hb.
  assert (Ha : 0 <= a * a + c * c) by nra.
  assert (Hb0 : 0 <= b * b + c * c) by nra.
  pose proof (sqrt_pos (a * a + c * c)) as PA.
  pose proof (sqrt_pos (b * b + c * c)) as PB.
  pose proof (sqrt_sqrt _ Ha) as EA.
  pose proof (sqrt_sqrt _ Hb0) as EB.
  set (A := sqrt (a * a + c * c)) in *.
  set (B := sqrt (b * b + c * c)) in *.
  pose proof (Rabs_pos (a - b)) as Pd.
  assert (Hd1 : a - b <= Rabs (a - b)) by apply Rle_abs.
  assert (Hd2 : - (a - b) <= Rabs (a - b)) by (rewrite <- Rabs_Ropp; apply Rle_abs).
  assert (Hb1 : b <= Rabs b) by apply Rle_abs.
  assert (Hb2 : - b <= Rabs b) by (rewrite <- Rabs_Ropp; apply Rle_abs).
  assert (Ed : Rabs (a - b) * Rabs (a - b) = (a - b) * (a - b)).
  { unfold Rabs. destruct (Rcase_abs (a - b)); ring. }
  set (d := Rabs (a - b)) in *. set (m := Rabs b) in *.
  destruct (Rle_dec A (B + d)) as [|Hn]; [assumption|exfalso].
  assert (Hgt : B + d < A) by lra.
  assert (H1 : (B + d) * (B + d) < A * A) by nra.
  assert (H2 : b * (a - b) <= m * d).
  { destruct (Rle_dec 0 b); destruct (Rle_dec 0 (a - b)); nra. }
  nra.
Qed.

Lemma hyp_lipschitz (a b c : R) :
  Rabs (sqrt (a * a + c * c) - sqrt (b * b + c * c)) <= Rabs (a - b).
Proof.
  apply Rabs_le. split.
  - pose proof (hyp_step b a c) as H. rewrite Rabs_minus_sym in H. lra.
  - pose proof (hyp_step a b c) as H. lra.
Qed.

(** The hypotenuse relation in exact arithmetic: the stringer length is
    within 0.05 of the exact hypotenuse of the unrounded total run, and
    within 0.1 of the hypotenuse of the returned total run. *)
Lemma hypotenuse_exact (totalRise : R) (desiredRiser desiredTread : option R)
    (stairType : string) (landingDepth : option R) :
  let g := stairsBody totalRise desiredRiser desiredTread stairType landingDepth in
  let out := calculateStairs totalRise desiredRiser desiredTread stairType landingDepth in
  let rise := Rmax 10 totalRise in
  Rabs (stringerLength out - sqrt (totalRun g * totalRun g + rise * rise)) <= / 20 /\
  Rabs (totalRun out - totalRun g) <= / 20 /\
  hypotenuse_over rise out /\
  Rabs (stringerLength out * stringerLength out
        - (totalRun out * totalRun out + rise * rise))
  <= (stringerLength out + sqrt (totalRun out * totalRun out + rise * rise)) / 10.
Proof.
  cbv zeta. unfold hypotenuse_over, calculateStairs, roundGeometry.
  cbn [stringerLength totalRun]. rewrite stringerLength_body. cbv zeta.
  set (g := stairsBody totalRise desiredRiser desiredTread stairType landingDepth).
  set (rise := Rmax 10 totalRise).
  pose proof (toFixed1_error (sqrt (totalRun g * totalRun g + rise * rise))) as E1.
  pose proof (toFixed1_error (totalRun g)) as E2.
  pose proof (hyp_lipschitz (Js.toFixed1 (totalRun g)) (totalRun g) rise) as L.
  pose proof (toFixed1_nonneg _ (sqrt_pos (totalRun g * totalRun g + rise * rise))) as Px.
  set (x := Js.toFixed1 (sqrt (totalRun g * totalRun g + rise * rise))) in *.
  set (h := sqrt (totalRun g * totalRun g + rise * rise)) in *.
  set (r := Js.toFixed1 (totalRun g)) in *.
  pose proof (sqrt_pos (r * r + rise * rise)) as Ph.
  assert (Eh : sqrt (r * r + rise * rise) * sqrt (r * r + rise * rise)
               = r * r + rise * rise) by (apply sqrt_sqrt; nra).
  set (h' := sqrt (r * r + rise * rise)) in *.
  assert (Hover : Rabs (x - h') <= / 10).
  { replace (x - h') with ((x - h) + - (h' - h)) by ring.
    eapply Rle_trans; [apply Rabs_triang|]. rewrite Rabs_Ropp. lra. }
  split; [exact E1|]. split; [exact E2|]. split; [exact Hover|].
  rewrite <- Eh. replace (x * x - h' * h') with ((x - h') * (x + h')) by ring.
  rewrite Rabs_mult, (Rabs_pos_eq (x + h')) by lra.
  pose proof (Rabs_pos (x - h')). nra.
Qed.

(** C2, as amended.  For a total rise of at most 10^9 and a landing depth of
    at most 10^9 the returned stringer length is the hypotenuse of the
    returned total run and the effective rise [max(10, totalRise)], up to
    the rounding of the two fields to one decimal: the stringer length is
    within 0.051 of the hypotenuse of the unrounded total run and within
    0.101 of the hypotenuse of the returned total run; in squares,
    [stringerLength²] and [totalRun² + rise²] differ by at most 0.101 times
    the sum of the two lengths.  (The bounds leave 0.001 to the rounding of
    the program's own arithmetic, which the range keeps far below that.) *)
Theorem hypotenuse_effective_rise (totalRise : R) (desiredRiser desiredTread : option R)
    (stairType : string) (landingDepth : option R) :
  totalRise <= 10 ^ 9 ->
  (forall d, landingDepth = Some d -> d <= 10 ^ 9) ->
  let g := stairsBody totalRise desiredRiser desiredTread stairType landingDepth in
  let out := calculateStairs totalRise desiredRiser desiredTread stairType landingDepth in
  let rise := Rmax 10 totalRise in
  Rabs (stringerLength out - sqrt (totalRun g * totalRun g + rise * rise)) <= 51 / 1000 /\
  Rabs (totalRun out - totalRun g) <= 51 / 1000 /\
  Rabs (stringerLength out - sqrt (totalRun out * totalRun out + rise * rise))
    <= 101 / 1000 /\
  Rabs (stringerLength out * stringerLength out
        - (totalRun out * totalRun out + rise * rise))
  <= (stringerLength out + sqrt (totalRun out * totalRun out + rise * rise))
     * (101 / 1000).
Proof.
  intros _ _. cbv zeta.
  pose proof (hypotenuse_exact totalRise desiredRiser desiredTread stairType landingDepth) as H.
  cbv zeta in H. unfold hypotenuse_over in H. destruct H as (H1 & H2 & H3 & H4).
  set (out := calculateStairs totalRise desiredRiser desiredTread stairType landingDepth) in *.
  set (rise := Rmax 10 totalRise) in *.
  assert (Ps : 0 <= stringerLength out).
  { unfold out, calculateStairs, roundGeometry. cbn [stringerLength].
    apply toFixed1_nonneg. rewrite stringerLength_body. apply sqrt_pos. }
  pose proof (sqrt_pos (totalRun out * totalRun out + rise * rise)) as Ph.
  repeat split; lra.
Qed.

Lemma hypotenuse_effective_rise_witness :
  Rabs (stringerLength (calculateStairs 2700 (Some 170) (Some 280) "l" (Some 900))
        - sqrt (totalRun (calculateStairs 2700 (Some 170) (Some 280) "l" (Some 900))
                * totalRun (calculateStairs 2700 (Some 170) (Some 280) "l" (Some 900))
                + Rmax 10 2700 * Rmax 10 2700)) <= 101 / 1000.
Proof.
  assert (H1 : 2700 <= 10 ^ 9) by (simpl; lra).
  assert (H2 : forall d, Some 900 = Some d -> d <= 10 ^ 9).
  { intros d E. inversion E; subst. simpl. lra. }
  exact (proj1 (proj2 (proj2
    (hypotenuse_effective_rise 2700 (Some 170) (Some 280) "l" (Some 900) H1 H2)))).
Defined.

Lemma clamp_high (v a b : R) : a <= b -> b <= v -> Js.clamp v a b = b.
Proof.
  intros Hab Hv. unfold Js.clamp, Rmax, Rmin.
  destruct (Rle_dec b v); destruct (Rle_dec a _); lra.
Qed.

(** A total rise of -1000 is lifted to the floor of 10: one step of 10. *)
Lemma negative_rise_steps : afterLoopB (-1000) None = (1%Z, 10 / 1).
Proof.
  assert (E : initialSteps (-1000) None = (1%Z, 10 / 1)).
  { unfold initialSteps. rewrite Rmax_left by lra.
    cbn [Js.or_default]. rewrite clamp_id by lra.
    rewrite (round_unique (10 / 170) 0) by lra. reflexivity. }
  unfold afterLoopB, afterLoopA. rewrite E, Rmax_left by lra.
  rewrite loopA_skip, loopB_skip; [reflexivity| |].
  - apply andb_false_iff. right. reflexivity.
  - apply andb_false_iff. left. apply gtb_false. lra.
Qed.

(** The geometry returned for a total rise of -1000: a total run of 400 and
    a stringer of 400.1, the hypotenuse of 400 and 10. *)
Lemma negative_rise_geometry :
  let out := calculateStairs (-1000) None None "straight" None in
  totalRun out = 400 /\ stringerLength out = 4001 / 10.
Proof.
  cbv zeta. unfold calculateStairs, roundGeometry. cbn [totalRun stringerLength].
  assert (Run : totalRun (stairsBody (-1000) None None "straight" None) = 400).
  { rewrite totalRun_body. cbv zeta. rewrite steps_body, tread_body. cbv zeta.
    rewrite riser_body, negative_rise_steps. cbn [fst snd Js.or_default].
    cbn [String.eqb Ascii.eqb Bool.eqb orb].
    rewrite clamp_high by lra. lra. }
  rewrite stringerLength_body. cbv zeta. rewrite Run, Rmax_left by lra.
  split; [fixed1 4000%Z; lra|].
  assert (Hlo : 40005 / 100 <= sqrt (400 * 400 + 10 * 10)).
  { rewrite <- (sqrt_square (40005 / 100)) by lra. apply sqrt_le_1_alt. lra. }
  assert (Hhi : sqrt (400 * 400 + 10 * 10) < 40015 / 100).
  { rewrite <- (sqrt_square (40015 / 100)) by lra. apply sqrt_lt_1_alt. lra. }
  fixed1 4001%Z. reflexivity.
Qed.

(** C2, as stated, fails.  Read over the total rise the caller supplied,
    the hypotenuse relation is broken by a total rise of -1000: the engine
    computes with the floor of 10 and returns a stringer of 400.1 for a
    total run of 400, while the hypotenuse of 400 and 1000 is above
    1000. *)
Lemma hypotenuse_caller_rise_fails :
  ~ hypotenuse_over (-1000) (calculateStairs (-1000) None None "straight" None).
Proof.
  unfold hypotenuse_over. destruct negative_rise_geometry as [Run Len].
  rewrite Run, Len. intros H.
  assert (Hlo : 1000 <= sqrt (400 * 400 + -1000 * -1000)).
  { rewrite <- (sqrt_square 1000) at 1 by lra. apply sqrt_le_1_alt. lra. }
  set (e := 4001 / 10 - sqrt (400 * 400 + -1000 * -1000)) in *.
  pose proof (Rle_abs (- e)) as H1. rewrite Rabs_Ropp in H1.
  unfold e in *. lra.
Qed.

(** * Further properties of the engine *)

(** ** Rounding to one decimal is monotone *)

Lemma toFixed1_fixed (k : Z) : (0 <= k)%Z -> Js.toFixed1 (IZR k / 10) = IZR k / 10.
Proof.
  intros Hk. apply IZR_le in Hk. unfold Js.toFixed1.
  destruct (Rle_dec (10 ^ 21) (Rabs (IZR k / 10))); [reflexivity|].
  destruct (Rlt_dec (IZR k / 10) 0); [lra|].
  rewrite (floor_unique _ k) by lra. reflexivity.
Qed.

Lemma toFixed1_mono (x y : R) : 0 <= x <= y -> Js.toFixed1 x <= Js.toFixed1 y.
Proof.
  intros [H0 Hxy]. unfold Js.toFixed1.
  rewrite !Rabs_pos_eq by lra.
  destruct (Rle_dec (10 ^ 21) x) as [Hx|Hx]; destruct (Rle_dec (10 ^ 21) y) as [Hy|Hy];
    try lra.
  - destruct (Rlt_dec x 0); [lra|].
    assert (Hn : (Int_part (10 * x + / 2) <= 10 ^ 22)%Z).
    { pose proof (floor_bounds (10 * x + / 2)).
      apply Z.lt_succ_r. apply lt_IZR. rewrite succ_IZR.
      rewrite ten_pow_21 in Hx. change (10 ^ 22)%Z with 10000000000000000000000%Z. lra. }
    apply IZR_le in Hn. rewrite ten_pow_21 in Hy.
    change (10 ^ 22)%Z with 10000000000000000000000%Z in Hn. lra.
  - destruct (Rlt_dec x 0); [lra|]. destruct (Rlt_dec y 0); [lra|].
    assert (Hn : (Int_part (10 * x + / 2) <= Int_part (10 * y + / 2))%Z)
      by (apply floor_mono; lra).
    apply IZR_le in Hn. lra.
Qed.

(** ** The rounded quotient before the loops *)

Lemma initialSteps_round (totalRise : R) (desiredRiser : option R) (s : Z) (r : R) :
  initialSteps totalRise desiredRiser = (s, r) ->
  let t := Js.clamp (Js.or_default desiredRiser 170) 120 210 in
  Rmax 10 totalRise < (IZR s + / 2) * t /\
  (s = 1%Z \/ (IZR s - / 2) * t <= Rmax 10 totalRise).
Proof.
  unfold initialSteps. intros H. inversion H; subst. clear H. cbv zeta.
  pose proof (targetRiser_bounds desiredRiser) as Ht.
  set (t := Js.clamp (Js.or_default desiredRiser 170) 120 210) in *.
  set (rise := Rmax 10 totalRise).
  assert (Pt : 0 < t) by lra.
  pose proof (round_bounds (rise / t)) as [Hlo Hhi].
  apply (proj1 (le_div_iff _ _ _ Pt)) in Hlo.
  apply (proj1 (div_lt_iff _ _ _ Pt)) in Hhi.
  destruct (Js.round (rise / t) <? 1)%Z eqn:E; unbool.
  - split; [|left; reflexivity].
    assert (IZR (Js.round (rise / t)) <= 0) by (apply IZR_le; lia). nra.
  - split; [exact Hhi|right; exact Hlo].
Qed.

(** ** The riser and the step count for every input *)

(** What the two loops leave, for every input: the facts of [loopA_spec]
    and [loopB_spec] with the definitions of [afterLoopA] and [afterLoopB]
    unfolded. *)
Lemma loops_facts (totalRise : R) (desiredRiser : option R) (b : Z) (rb : R) :
  afterLoopB totalRise desiredRiser = (b, rb) ->
  let rise := Rmax 10 totalRise in
  exists (s0 a : Z) (ra : R),
    (1 <= s0 <= a)%Z /\ (1 <= b <= a)%Z /\
    rise < (IZR s0 + / 2) * 210 /\
    ra = rise / IZR a /\ rb = rise / IZR b /\
    (ra <= 210 \/ (200 <= a)%Z) /\
    (b = a \/ rise / IZR (b + 1) < 120) /\
    (120 <= rb \/ b = 1%Z).
Proof.
  unfold afterLoopB, afterLoopA. cbv zeta.
  destruct (initialSteps totalRise desiredRiser) as [s0 r0] eqn:E0.
  destruct (initialSteps_spec _ _ _ _ E0) as [Hs0 Hr0].
  destruct (initialSteps_round _ _ _ _ E0) as [Hround _].
  pose proof (targetRiser_bounds desiredRiser) as Ht.
  set (rise := Rmax 10 totalRise) in *.
  destruct (loopA _ rise s0 r0) as [a ra] eqn:EA.
  destruct (loopA_spec _ _ _ _ _ _ EA Hr0) as (HleA & Hra & _ & HexitA).
  intros EB.
  destruct (loopB_spec _ _ _ _ _ _ EB Hra) as (HleB & Hrb & HprevB & HexitB); [lia|].
  exists s0, a, ra.
  assert (P0 : 1 <= IZR s0) by (apply IZR_le; lia).
  split; [lia|]. split; [lia|]. split; [nra|].
  split; [assumption|]. split; [assumption|].
  split; [apply HexitA; lia|]. split; [assumption|].
  apply HexitB. lia.
Qed.

Lemma afterLoopB_range (totalRise : R) (desiredRiser : option R) (b : Z) (rb : R) :
  afterLoopB totalRise desiredRiser = (b, rb) ->
  (1 <= b)%Z /\ 10 <= rb < 240 /\ rb * IZR b = Rmax 10 totalRise /\
  (120 <= rb \/ b = 1%Z).
Proof.
  intros E.
  destruct (loops_facts _ _ _ _ E) as (s0 & a & ra & Hs & Hb & Hround & Hra & Hrb & HA & HpB & HxB).
  pose proof (rise_ge_10 totalRise) as H10.
  set (rise := Rmax 10 totalRise) in *.
  assert (Pa : 0 < IZR a) by (apply IZR_lt; lia).
  assert (Pb : 0 < IZR b) by (apply IZR_lt; lia).
  assert (Pb1 : 0 < IZR (b + 1)) by (apply IZR_lt; lia).
  assert (B1 : 1 <= IZR b) by (apply IZR_le; lia).
  split; [lia|]. split; [split|split; [|exact HxB]].
  - destruct HxB as [H|H]; [lra|]. subst b. rewrite Hrb. lra.
  - rewrite Hrb. apply div_lt_iff; [assumption|].
    destruct HpB as [->|Hp].
    + destruct HA as [H|H].
      * rewrite Hra in H. apply (proj1 (div_le_iff _ _ _ Pa)) in H. lra.
      * assert (IZR s0 <= IZR a) by (apply IZR_le; lia).
        apply IZR_le in H. lra.
    + apply (proj1 (div_lt_iff _ _ _ Pb1)) in Hp. rewrite plus_IZR in Hp. lra.
  - rewrite Hrb. field. lra.
Qed.

(** X1.  For every input the riser before rounding is at least 10 and
    below 240. *)
Theorem riser_range (totalRise : R) (desiredRiser desiredTread : option R)
    (stairType : string) (landingDepth : option R) :
  let g := stairsBody totalRise desiredRiser desiredTread stairType landingDepth in
  10 <= riser g < 240.
Proof.
  cbv zeta. rewrite riser_body.
  destruct (afterLoopB totalRise desiredRiser) as [b rb] eqn:E. cbn [fst snd].
  destruct (afterLoopB_range _ _ _ _ E) as (_ & H1 & _). exact H1.
Qed.

(** X2.  The engine returns a single step exactly when the effective rise
    [max(10, totalRise)] is below 240; the riser is then the whole rise. *)
Theorem single_step_iff (totalRise : R) (desiredRiser desiredTread : option R)
    (stairType : string) (landingDepth : option R) :
  let out := calculateStairs totalRise desiredRiser desiredTread stairType landingDepth in
  let g := stairsBody totalRise desiredRiser desiredTread stairType landingDepth in
  (steps out = 1%Z <-> Rmax 10 totalRise < 240) /\
  (steps out = 1%Z -> riser g = Rmax 10 totalRise).
Proof.
  cbv zeta.
  assert (Es : steps (calculateStairs totalRise desiredRiser desiredTread stairType landingDepth)
               = steps (stairsBody totalRise desiredRiser desiredTread stairType landingDepth))
    by reflexivity.
  rewrite Es. clear Es. rewrite riser_body, steps_body.
  destruct (afterLoopB totalRise desiredRiser) as [b rb] eqn:E. cbn [fst snd].
  destruct (afterLoopB_range _ _ _ _ E) as (Hb & [Hlo Hhi] & Hcover & HxB).
  set (rise := Rmax 10 totalRise) in *.
  split; [split|].
  - intros ->. lra.
  - intros Hlt. destruct HxB as [H|H]; [|assumption].
    destruct (Z.eq_dec b 1) as [|Hne]; [assumption|exfalso].
    assert (2 <= IZR b) by (apply IZR_le; lia). nra.
  - intros ->. lra.
Qed.

(** * Further properties of the norm checker *)

Lemma pushIf_app (c : bool) (m : string) (l : list string) :
  pushIf c m l = l ++ pushIf c m [].
Proof. destruct c; simpl; [reflexivity|rewrite app_nil_r; reflexivity]. Qed.

Lemma In_pushIf (c : bool) (m x : string) :
  In x (pushIf c m []) <-> c = true /\ x = m.
Proof.
  destruct c; simpl; split; intros H.
  - destruct H as [H|[]]. auto.
  - left. symmetry. apply H.
  - contradiction.
  - destruct H. discriminate.
Qed.

(** The list of [checkNorms] is the concatenation of the six checks, each
    contributing its message or nothing. *)
Lemma checkNorms_app (toString : R -> string) (g : Geometry) :
  checkNorms toString g =
    pushIf (Js.ltb (riser g) 120) warnRiserBelow120 [] ++
    pushIf (Js.ltb (riser g) 150) warnRiserBelow150 [] ++
    pushIf (Js.gtb (riser g) 200) warnRiserAbove200 [] ++
    pushIf (Js.ltb (tread g) 240) warnTreadBelow240 [] ++
    pushIf (Js.ltb (2 * riser g + tread g) 550 || Js.gtb (2 * riser g + tread g) 700)
           (warnBlondel toString (2 * riser g + tread g)) [] ++
    pushIf (Js.gtb (angleDeg g) 45) (warnAngle toString (angleDeg g)) [].
Proof.
  unfold checkNorms. cbv zeta.
  destruct (Js.ltb (riser g) 120); destruct (Js.ltb (riser g) 150);
    destruct (Js.gtb (riser g) 200); destruct (Js.ltb (tread g) 240);
    destruct (Js.ltb (2 * riser g + tread g) 550 || Js.gtb (2 * riser g + tread g) 700);
    destruct (Js.gtb (angleDeg g) 45); reflexivity.
Qed.

(** Splits membership in the list of [checkNorms] into the six checks and
    drops the checks whose message has another fixed text. *)
Ltac which_check H :=
  rewrite checkNorms_app in H; rewrite !in_app_iff, !In_pushIf in H;
  unfold warnRiserBelow120, warnRiserBelow150, warnRiserAbove200,
    warnTreadBelow240, warnBlondel, warnAngle in H;
  cbn [String.append] in H;
  repeat match type of H with
  | _ \/ _ => destruct H as [H|H]
  end;
  try (destruct H as [_ H]; discriminate H).

Ltac this_check :=
  rewrite checkNorms_app; rewrite !in_app_iff, !In_pushIf.

Section CheckMembership.

Variable toString : R -> string.
Variable g : Geometry.

Lemma In_below120 : In warnRiserBelow120 (checkNorms toString g) <-> riser g < 120.
Proof.
  split; intros H.
  - which_check H. destruct H as [H _]. apply ltb_true. exact H.
  - this_check. left. split; [|reflexivity]. apply ltb_true. exact H.
Qed.

Lemma In_below150 : In warnRiserBelow150 (checkNorms toString g) <-> riser g < 150.
Proof.
  split; intros H.
  - which_check H. destruct H as [H _]. apply ltb_true. exact H.
  - this_check. right. left. split; [|reflexivity]. apply ltb_true. exact H.
Qed.

Lemma In_above200 : In warnRiserAbove200 (checkNorms toString g) <-> 200 < riser g.
Proof.
  split; intros H.
  - which_check H. destruct H as [H _]. apply gtb_true. exact H.
  - this_check. do 2 right. left. split; [|reflexivity]. apply gtb_true. exact H.
Qed.

Lemma In_treadBelow240 : In warnTreadBelow240 (checkNorms toString g) <-> tread g < 240.
Proof.
  split; intros H.
  - which_check H. destruct H as [H _]. apply ltb_true. exact H.
  - this_check. do 3 right. left. split; [|reflexivity]. apply ltb_true. exact H.
Qed.

Lemma In_blondel_check (sum : R) :
  In (warnBlondel toString sum) (checkNorms toString g) ->
  2 * riser g + tread g < 550 \/ 700 < 2 * riser g + tread g.
Proof.
  intros H. which_check H. destruct H as [H _].
  apply orb_true_iff in H.
  destruct H as [H|H]; [left; apply ltb_true|right; apply gtb_true]; exact H.
Qed.

Lemma check_In_blondel :
  2 * riser g + tread g < 550 \/ 700 < 2 * riser g + tread g ->
  In (warnBlondel toString (2 * riser g + tread g)) (checkNorms toString g).
Proof.
  intros H. this_check. do 4 right. left. split; [|reflexivity].
  apply orb_true_iff.
  destruct H as [H|H]; [left; apply ltb_true|right; apply gtb_true]; exact H.
Qed.

Lemma In_angle_check (a : R) :
  In (warnAngle toString a) (checkNorms toString g) -> 45 < angleDeg g.
Proof. intros H. which_check H. destruct H as [H _]. apply gtb_true. exact H. Qed.

Lemma check_In_angle :
  45 < angleDeg g -> In (warnAngle toString (angleDeg g)) (checkNorms toString g).
Proof.
  intros H. this_check. do 5 right. split; [|reflexivity]. apply gtb_true. exact H.
Qed.

End CheckMembership.

(** X3.  Each warning appears exactly when its own check holds: the four
    fixed messages when [riser < 120], [riser < 150], [riser > 200] and
    [tread < 240]; a Blondel message when [2 * riser + tread] is below 550
    or above 700 (and then with that sum); an angle message when the angle
    is above 45 (and then with that angle). *)
Theorem warning_iff_check (toString : R -> string) (g : Geometry) :
  (In warnRiserBelow120 (checkNorms toString g) <-> riser g < 120) /\
  (In warnRiserBelow150 (checkNorms toString g) <-> riser g < 150) /\
  (In warnRiserAbove200 (checkNorms toString g) <-> 200 < riser g) /\
  (In warnTreadBelow240 (checkNorms toString g) <-> tread g < 240) /\
  (In (warnBlondel toString (2 * riser g + tread g)) (checkNorms toString g)
     <-> 2 * riser g + tread g < 550 \/ 700 < 2 * riser g + tread g) /\
  ((exists sum, In (warnBlondel toString sum) (checkNorms toString g))
     <-> 2 * riser g + tread g < 550 \/ 700 < 2 * riser g + tread g) /\
  (In (warnAngle toString (angleDeg g)) (checkNorms toString g) <-> 45 < angleDeg g) /\
  ((exists a, In (warnAngle toString a) (checkNorms toString g)) <-> 45 < angleDeg g).
Proof.
  split; [apply In_below120|]. split; [apply In_below150|].
  split; [apply In_above200|]. split; [apply In_treadBelow240|].
  split; [split; [apply In_blondel_check|apply check_In_blondel]|].
  split.
  { split; [intros [sum H]; exact (In_blondel_check _ _ _ H)|].
    intros H. eexists. apply check_In_blondel. exact H. }
  split; [split; [apply In_angle_check|apply check_In_angle]|].
  split; [intros [a H]; exact (In_angle_check _ _ _ H)|].
  intros H. eexists. apply check_In_angle. exact H.
Qed.

(** X4.  The two low-riser warnings are nested and exclude the high-riser
    warning: "below 120" never appears without "< 150", and "> 200" never
    appears together with either of them. *)
Theorem riser_warnings_nested (toString : R -> string) (g : Geometry) :
  (In warnRiserBelow120 (checkNorms toString g) ->
   In warnRiserBelow150 (checkNorms toString g)) /\
  (In warnRiserAbove200 (checkNorms toString g) ->
   ~ In warnRiserBelow150 (checkNorms toString g) /\
   ~ In warnRiserBelow120 (checkNorms toString g)).
Proof.
  rewrite In_below120, In_below150, In_above200. split; intros H; [lra|split; lra].
Qed.

Lemma riser_warnings_nested_witness :
  In warnRiserBelow150
     (checkNorms (fun _ => "?"%string) (mkGeometry 1 100 200 200 224 27)).
Proof.
  apply (proj1 (riser_warnings_nested (fun _ => "?"%string) (mkGeometry 1 100 200 200 224 27))).
  apply In_below120. cbn [riser]. lra.
Defined.

(** X5.  [checkNorms] returns the empty list exactly when the record is
    inside every comfort range: [150 <= riser <= 200], [tread >= 240],
    [550 <= 2 * riser + tread <= 700] and [angleDeg <= 45]. *)
Theorem no_warning_iff (toString : R -> string) (g : Geometry) :
  checkNorms toString g = [] <->
  150 <= riser g <= 200 /\ 240 <= tread g /\
  550 <= 2 * riser g + tread g <= 700 /\ angleDeg g <= 45.
Proof.
  rewrite checkNorms_app. split.
  - intros H.
    repeat match type of H with
    | _ ++ _ = [] => apply app_eq_nil in H; let H1 := fresh "E" in destruct H as [H1 H]
    end.
    repeat match goal with
    | E : pushIf ?c _ _ = [] |- _ =>
        let C := fresh "C" in destruct c eqn:C; [discriminate E|clear E]
    end.
    unbool. lra.
  - intros (Hr & Ht & Hs & Ha).
    assert (C1 : Js.ltb (riser g) 120 = false) by (apply ltb_false; lra).
    assert (C2 : Js.ltb (riser g) 150 = false) by (apply ltb_false; lra).
    assert (C3 : Js.gtb (riser g) 200 = false) by (apply gtb_false; lra).
    assert (C4 : Js.ltb (tread g) 240 = false) by (apply ltb_false; lra).
    assert (C5 : Js.ltb (2 * riser g + tread g) 550 = false) by (apply ltb_false; lra).
    assert (C6 : Js.gtb (2 * riser g + tread g) 700 = false) by (apply gtb_false; lra).
    assert (C7 : Js.gtb (angleDeg g) 45 = false) by (apply gtb_false; lra).
    rewrite C1, C2, C3, C4, C5, C6, C7. reflexivity.
Qed.

(** * The engine and the checker together *)

Lemma toFixed1_close (x : R) : x - / 20 <= Js.toFixed1 x <= x + / 20.
Proof.
  pose proof (toFixed1_error x) as H.
  pose proof (Rle_abs (Js.toFixed1 x - x)) as H1.
  pose proof (Rle_abs (- (Js.toFixed1 x - x))) as H2.
  rewrite Rabs_Ropp in H2. lra.
Qed.

(** Rounding to one decimal keeps a non-negative number on its side of a
    multiple of 0.1. *)
Lemma toFixed1_ge (x : R) (k : Z) :
  (0 <= k)%Z -> IZR k / 10 <= x -> IZR k / 10 <= Js.toFixed1 x.
Proof.
  intros Hk Hx. rewrite <- (toFixed1_fixed k Hk). apply toFixed1_mono.
  apply IZR_le in Hk. lra.
Qed.

(** X6.  For every input the returned tread lies between 160 and 400, before
    and after rounding. *)
Theorem tread_range (totalRise : R) (desiredRiser desiredTread : option R)
    (stairType : string) (landingDepth : option R) :
  160 <= tread (stairsBody totalRise desiredRiser desiredTread stairType landingDepth) <= 400 /\
  160 <= tread (calculateStairs totalRise desiredRiser desiredTread stairType landingDepth) <= 400.
Proof.
  pose proof (tread_bounds totalRise desiredRiser desiredTread stairType landingDepth) as H.
  split; [exact H|].
  unfold calculateStairs, roundGeometry. cbn [tread]. split.
  - replace 160 with (IZR 1600 / 10) by lra. apply toFixed1_ge; [lia|lra].
  - replace 400 with (IZR 4000 / 10) by lra. apply toFixed1_le; lra.
Qed.

Lemma afterLoopB_at_least_120 (totalRise : R) (desiredRiser : option R) (b : Z) (rb : R) :
  afterLoopB totalRise desiredRiser = (b, rb) -> 120 <= totalRise -> 120 <= rb.
Proof.
  intros E H.
  destruct (afterLoopB_range _ _ _ _ E) as (_ & _ & Hcover & [Hx|Hx]); [exact Hx|].
  subst b. rewrite rise_id in Hcover by lra. lra.
Qed.

(** X7.  For a total rise of at least 120 the riser is at least 120 before
    and after rounding, so [compute] never shows the "below 120" warning. *)
Theorem compute_riser_at_least_120 (toString : R -> string)
    (totalRise desiredRiser desiredTread : R) (stairType : string) (landingDepth : R) :
  120 <= totalRise ->
  let g := stairsBody totalRise (Some desiredRiser) (Some desiredTread) stairType
                      (Some landingDepth) in
  let '(res, warnings) :=
    compute toString totalRise desiredRiser desiredTread stairType landingDepth in
  120 <= riser g /\ 120 <= riser res /\ ~ In warnRiserBelow120 warnings.
Proof.
  intros H. unfold compute. cbv zeta.
  assert (Hg : 120 <= riser (stairsBody totalRise (Some desiredRiser) (Some desiredTread)
                                        stairType (Some landingDepth))).
  { rewrite riser_body. destruct (afterLoopB totalRise (Some desiredRiser)) as [b rb] eqn:E.
    exact (afterLoopB_at_least_120 _ _ _ _ E H). }
  assert (Hres : 120 <= riser (calculateStairs totalRise (Some desiredRiser) (Some desiredTread)
                                               stairType (Some landingDepth))).
  { unfold calculateStairs, roundGeometry. cbn [riser].
    replace 120 with (IZR 1200 / 10) by lra. apply toFixed1_ge; [lia|lra]. }
  split; [exact Hg|]. split; [exact Hres|].
  rewrite In_below120. lra.
Qed.

Lemma compute_riser_at_least_120_witness :
  ~ In warnRiserBelow120 (snd (compute (fun _ => "?"%string) 2700 170 280 "straight" 900)).
Proof.
  pose proof (compute_riser_at_least_120 (fun _ => "?"%string) 2700 170 280 "straight" 900
                ltac:(lra)) as H.
  cbv zeta in H.
  destruct (compute (fun _ => "?"%string) 2700 170 280 "straight" 900) as [res warnings].
  exact (proj2 (proj2 H)).
Defined.

(** X8.  Loop A and loop B both change the step count only for an effective
    rise strictly between 210 and 240: loop A then goes from one step to
    two and loop B back to one.  For every other rise at most one of the
    loops acts. *)
Theorem loops_exclusive (totalRise : R) (desiredRiser : option R) :
  let s0 := fst (initialSteps totalRise desiredRiser) in
  let a := fst (afterLoopA totalRise desiredRiser) in
  let b := fst (afterLoopB totalRise desiredRiser) in
  a = s0 \/ b = a \/
  (210 < Rmax 10 totalRise < 240 /\ s0 = 1%Z /\ a = 2%Z /\ b = 1%Z).
Proof.
  cbv zeta. unfold afterLoopB, afterLoopA.
  destruct (initialSteps totalRise desiredRiser) as [s0 r0] eqn:E0.
  destruct (initialSteps_spec _ _ _ _ E0) as [Hs0 Hr0].
  set (rise := Rmax 10 totalRise) in *.
  destruct (loopA _ rise s0 r0) as [a ra] eqn:EA.
  destruct (loopA_spec _ _ _ _ _ _ EA Hr0) as (HleA & Hra & HprevA & _).
  destruct (loopB _ rise a ra) as [b rb] eqn:EB.
  destruct (loopB_spec _ _ _ _ _ _ EB Hra) as (HleB & Hrb & HprevB & _); [lia|].
  cbn [fst].
  destruct HprevA as [->|[Ha Hp]]; [left; reflexivity|].
  destruct HprevB as [->|Hq]; [right; left; reflexivity|].
  destruct (Z.eq_dec a s0) as [->|Hne]; [left; reflexivity|].
  destruct (Z.eq_dec b a) as [->|Hnb]; [right; left; reflexivity|].
  right. right.
  assert (Pa : 0 < IZR (a - 1)) by (apply IZR_lt; lia).
  assert (Pb : 0 < IZR (b + 1)) by (apply IZR_lt; lia).
  apply (proj1 (lt_div_iff _ _ _ Pa)) in Hp.
  apply (proj1 (div_lt_iff _ _ _ Pb)) in Hq.
  rewrite minus_IZR in Hp. rewrite plus_IZR in Hq.
  assert (Hba : IZR b + 1 <= IZR a) by (rewrite <- plus_IZR; apply IZR_le; lia).
  assert (Ha2 : (a <= 2)%Z).
  { apply Z.lt_succ_r. apply lt_IZR. rewrite succ_IZR. lra. }
  assert (a = 2%Z) by lia. subst a.
  assert (s0 = 1%Z) by lia. assert (b = 1%Z) by lia. subst s0 b.
  repeat split; try reflexivity; lra.
Qed.

(** X9.  The tread field left empty ([0]) on a stair that is not spiral,
    with a total rise of at least 120: the tread is derived from the riser
    so that [2 * riser + tread] is between 600 and 640 before rounding
    (exactly 600 while the riser is at most 220), and [compute] never shows
    the Blondel warning. *)
Theorem compute_default_tread_blondel (toString : R -> string)
    (totalRise desiredRiser : R) (stairType : string) (landingDepth : R) :
  120 <= totalRise -> String.eqb stairType "spiral" = false ->
  let g := stairsBody totalRise (Some desiredRiser) (Some 0) stairType (Some landingDepth) in
  let warnings := snd (compute toString totalRise desiredRiser 0 stairType landingDepth) in
  600 <= 2 * riser g + tread g < 640 /\
  (riser g <= 220 -> 2 * riser g + tread g = 600) /\
  forall sum, ~ In (warnBlondel toString sum) warnings.
Proof.
  intros Hrise Hs. cbv zeta. unfold compute. cbn [snd].
  set (g := stairsBody totalRise (Some desiredRiser) (Some 0) stairType (Some landingDepth)).
  assert (Hr : 120 <= riser g < 240).
  { unfold g. rewrite riser_body.
    destruct (afterLoopB totalRise (Some desiredRiser)) as [b rb] eqn:E. cbn [snd].
    destruct (afterLoopB_range _ _ _ _ E) as (_ & Hrng & _).
    pose proof (afterLoopB_at_least_120 _ _ _ _ E Hrise). lra. }
  assert (Ht : tread g = Rmax 160 (600 - 2 * riser g)).
  { unfold g at 1. rewrite tread_body. cbv zeta. fold g. rewrite Hs, or_default_zero.
    unfold Js.clamp. f_equal. apply Rmin_right. lra. }
  assert (Hsum : 600 <= 2 * riser g + tread g < 640 /\
                 (riser g <= 220 -> 2 * riser g + tread g = 600)).
  { rewrite Ht. unfold Rmax. destruct (Rle_dec 160 (600 - 2 * riser g)); lra. }
  destruct Hsum as [Hsum Heq]. split; [exact Hsum|]. split; [exact Heq|].
  intros sum Hin. apply In_blondel_check in Hin.
  unfold calculateStairs, roundGeometry in Hin. cbn [riser tread] in Hin. fold g in Hin.
  pose proof (toFixed1_close (riser g)). pose proof (toFixed1_close (tread g)). lra.
Qed.

Lemma compute_default_tread_blondel_witness :
  ~ In (warnBlondel (fun _ => "?"%string) 600)
       (snd (compute (fun _ => "?"%string) 2700 170 0 "straight" 900)).
Proof.
  pose proof (compute_default_tread_blondel (fun _ => "?"%string) 2700 170 "straight" 900
                ltac:(lra) eq_refl) as H.
  cbv zeta in H. exact (proj2 (proj2 H) 600).
Defined.

Lemma landingOr900_pos (landingDepth : option R) : 0 < landingOr900 landingDepth.
Proof.
  rewrite landingOr900_spec. unfold landingPerSpec.
  destruct landingDepth as [d|]; [destruct (Rlt_dec 0 d)|]; lra.
Qed.

(** The run before rounding covers at least the treads. *)
Lemma totalRun_lower (totalRise : R) (desiredRiser desiredTread : option R)
    (stairType : string) (landingDepth : option R) :
  let g := stairsBody totalRise desiredRiser desiredTread stairType landingDepth in
  tread g * IZR (steps g) <= totalRun g /\ 160 <= totalRun g.
Proof.
  cbv zeta. rewrite totalRun_body. cbv zeta.
  pose proof (tread_bounds totalRise desiredRiser desiredTread stairType landingDepth) as Ht.
  pose proof (landingOr900_pos landingDepth) as Hl.
  set (g := stairsBody totalRise desiredRiser desiredTread stairType landingDepth) in *.
  assert (Hs : 1 <= IZR (steps g)).
  { unfold g. rewrite steps_body.
    destruct (afterLoopB totalRise desiredRiser) as [b rb] eqn:E.
    destruct (afterLoopB_spec _ _ _ _ E) as [Hb _]. cbn [fst]. apply IZR_le. exact Hb. }
  destruct (_ || _)%bool; split; nra.
Qed.

(** X10.  For every input the total run is at least 160 and the stringer
    is at least as long as the total run and as the effective rise; after
    rounding the stringer length is still at least the total run, which is
    still at least 160. *)
Theorem run_and_stringer (totalRise : R) (desiredRiser desiredTread : option R)
    (stairType : string) (landingDepth : option R) :
  let g := stairsBody totalRise desiredRiser desiredTread stairType landingDepth in
  let out := calculateStairs totalRise desiredRiser desiredTread stairType landingDepth in
  let rise := Rmax 10 totalRise in
  160 <= totalRun g /\
  totalRun g <= stringerLength g /\ rise <= stringerLength g /\
  160 <= totalRun out <= stringerLength out.
Proof.
  cbv zeta. unfold calculateStairs, roundGeometry. cbn [totalRun stringerLength].
  rewrite stringerLength_body. cbv zeta.
  destruct (totalRun_lower totalRise desiredRiser desiredTread stairType landingDepth)
    as [_ Hrun].
  pose proof (rise_ge_10 totalRise) as Hrise.
  set (g := stairsBody totalRise desiredRiser desiredTread stairType landingDepth) in *.
  set (rise := Rmax 10 totalRise) in *.
  pose proof (hyp_ge_leg (totalRun g) rise) as H1.
  pose proof (hyp_ge_leg rise (totalRun g)) as H2.
  rewrite Rabs_pos_eq in H1, H2 by lra.
  replace (rise * rise + totalRun g * totalRun g)
    with (totalRun g * totalRun g + rise * rise) in H2 by ring.
  repeat split; try assumption.
  - replace 160 with (IZR 1600 / 10) by lra. apply toFixed1_ge; [lia|lra].
  - apply toFixed1_mono. lra.
Qed.

(** ** The angle *)

Lemma atan_three_halves : atan (3 / 2) <= PI / 2 - 58 / 100.
Proof.
  replace (3 / 2) with (/ (2 / 3)) by lra.
  rewrite atan_inv by lra.
  pose proof (atan_enclosure (2 / 3) 1 ltac:(lra)) as [Hlo _].
  unfold tg_alt, Ratan_seq in Hlo. simpl in Hlo. lra.
Qed.

(** The slope of the flight: effective rise over total run, below 3/2. *)
Lemma slope_bounds (totalRise : R) (desiredRiser desiredTread : option R)
    (stairType : string) (landingDepth : option R) :
  let g := stairsBody totalRise desiredRiser desiredTread stairType landingDepth in
  0 < totalRun g /\ 0 < Rmax 10 totalRise / totalRun g < 3 / 2 /\
  angleDeg g = atan (Rmax 10 totalRise / totalRun g) * 180 / PI.
Proof.
  cbv zeta. rewrite angleDeg_body. cbv zeta.
  destruct (totalRun_lower totalRise desiredRiser desiredTread stairType landingDepth)
    as [Hts Hrun].
  pose proof (tread_bounds totalRise desiredRiser desiredTread stairType landingDepth) as Ht.
  pose proof (riser_body totalRise desiredRiser desiredTread stairType landingDepth) as Er.
  pose proof (steps_body totalRise desiredRiser desiredTread stairType landingDepth) as Es.
  pose proof (rise_ge_10 totalRise) as Hrise.
  set (g := stairsBody totalRise desiredRiser desiredTread stairType landingDepth) in *.
  destruct (afterLoopB totalRise desiredRiser) as [b rb] eqn:E. cbn [fst snd] in Er, Es.
  destruct (afterLoopB_range _ _ _ _ E) as (Hb & Hr & Hcover & _).
  rewrite <- Er, <- Es in *. apply IZR_le in Hb.
  set (rise := Rmax 10 totalRise) in *.
  assert (Prun : 0 < totalRun g) by lra.
  split; [exact Prun|]. split; [|rewrite atan2_pos by exact Prun; reflexivity].
  split.
  - apply lt_div_iff; [exact Prun|]. lra.
  - apply div_lt_iff; [exact Prun|]. nra.
Qed.

(** X11.  For every input the angle, before and after rounding, is at
    least 0 and at most 57 degrees (below 57 before rounding). *)
Theorem angle_range (totalRise : R) (desiredRiser desiredTread : option R)
    (stairType : string) (landingDepth : option R) :
  let g := stairsBody totalRise desiredRiser desiredTread stairType landingDepth in
  let out := calculateStairs totalRise desiredRiser desiredTread stairType landingDepth in
  0 <= angleDeg g < 57 /\
  0 <= angleDeg out <= 57.
Proof.
  cbv zeta.
  destruct (slope_bounds totalRise desiredRiser desiredTread stairType landingDepth)
    as (Prun & [Hx0 Hx1] & Ea).
  unfold calculateStairs, roundGeometry. cbn [angleDeg].
  set (g := stairsBody totalRise desiredRiser desiredTread stairType landingDepth) in *.
  set (x := Rmax 10 totalRise / totalRun g) in *.
  pose proof PI_enclosure as [P1 P2]. assert (Ppos : 0 < PI) by lra.
  pose proof (atan_increasing _ _ Hx0) as A0. rewrite atan_0 in A0.
  pose proof (atan_increasing _ _ Hx1) as A1.
  pose proof atan_three_halves as A2.
  assert (Hang : 0 < angleDeg g < 57).
  { rewrite Ea. split.
    - apply lt_div_iff; [exact Ppos|]. lra.
    - apply div_lt_iff; [exact Ppos|]. lra. }
  split; [lra|]. split.
  - apply toFixed1_nonneg. lra.
  - replace 57 with (IZR 570 / 10) by lra. apply toFixed1_le; lra.
Qed.



(** ** What the engine ignores *)

(** X13.  The step count and the riser depend on the total rise and the
    desired riser only: the desired tread, the stair type and the landing
    depth do not change them. *)
Theorem steps_riser_independent (totalRise : R) (desiredRiser : option R)
    (desiredTread desiredTread' : option R) (stairType stairType' : string)
    (landingDepth landingDepth' : option R) :
  let out := calculateStairs totalRise desiredRiser desiredTread stairType landingDepth in
  let out' := calculateStairs totalRise desiredRiser desiredTread' stairType' landingDepth' in
  steps out = steps out' /\ riser out = riser out'.
Proof.
  cbv zeta. unfold calculateStairs, roundGeometry. cbn [steps riser].
  rewrite !steps_body, !riser_body. split; reflexivity.
Qed.

(** X14.  For a stair type other than ['l'] and ['u'] the landing depth is
    ignored: any two landing depths give the same geometry. *)
Theorem landing_ignored (totalRise : R) (desiredRiser desiredTread : option R)
    (stairType : string) (landingDepth landingDepth' : option R) :
  String.eqb stairType "l" || String.eqb stairType "u" = false ->
  calculateStairs totalRise desiredRiser desiredTread stairType landingDepth
  = calculateStairs totalRise desiredRiser desiredTread stairType landingDepth'.
Proof.
  intros H. unfold calculateStairs, stairsBody.
  destruct (afterLoopB totalRise desiredRiser) as [b rb]. rewrite H. reflexivity.
Qed.

Lemma landing_ignored_witness :
  calculateStairs 2700 (Some 170) (Some 280) "spiral" (Some 900)
  = calculateStairs 2700 (Some 170) (Some 280) "spiral" None.
Proof. apply landing_ignored. reflexivity. Defined.

(** X15.  The floor of 10 on the total rise: every total rise of at most 10
    (zero and negative ones included) gives the geometry of a total rise
    of 10, a single step with a riser of 10. *)
Theorem rise_floor (totalRise : R) (desiredRiser desiredTread : option R)
    (stairType : string) (landingDepth : option R) :
  totalRise <= 10 ->
  let out := calculateStairs totalRise desiredRiser desiredTread stairType landingDepth in
  out = calculateStairs 10 desiredRiser desiredTread stairType landingDepth /\
  steps out = 1%Z /\ riser out = 10.
Proof.
  intros H. cbv zeta.
  assert (E : calculateStairs totalRise desiredRiser desiredTread stairType landingDepth
              = calculateStairs 10 desiredRiser desiredTread stairType landingDepth).
  { unfold calculateStairs, stairsBody, afterLoopB, afterLoopA, initialSteps.
    rewrite (Rmax_left 10 totalRise) by lra. rewrite (Rmax_left 10 10) by lra.
    reflexivity. }
  split; [exact E|]. rewrite E.
  unfold calculateStairs, roundGeometry. cbn [steps riser].
  rewrite steps_body, riser_body.
  destruct (afterLoopB 10 desiredRiser) as [b rb] eqn:EB. cbn [fst snd].
  destruct (afterLoopB_range _ _ _ _ EB) as (Hb & Hr & Hcover & Hx).
  rewrite Rmax_left in Hcover by lra.
  assert (b = 1%Z).
  { destruct Hx as [Hx|Hx]; [|exact Hx].
    apply IZR_le in Hb. nra. }
  subst b. split; [reflexivity|].
  assert (rb = 10) by lra. subst rb. fixed1 100%Z. lra.
Qed.

Lemma rise_floor_witness :
  steps (calculateStairs (-1000) None None "straight" None) = 1%Z.
Proof.
  pose proof (rise_floor (-1000) None None "straight" None ltac:(lra)) as H.
  cbv zeta in H. exact (proj1 (proj2 H)).
Defined.

(** * The 3D preview *)

















(** ** The preview of an engine result *)

Lemma Rabs_le_both (x e : R) : Rabs x <= e -> - e <= x <= e.
Proof.
  intros H. pose proof (Rle_abs x). pose proof (Rle_abs (- x)) as H1.
  rewrite Rabs_Ropp in H1. lra.
Qed.

Lemma sqrt_scale_1000 (a b : R) :
  sqrt (a / 1000 * (a / 1000) + b / 1000 * (b / 1000)) = sqrt (a * a + b * b) / 1000.
Proof.
  replace (a / 1000 * (a / 1000) + b / 1000 * (b / 1000))
    with ((a * a + b * b) * (/ 1000 * / 1000)) by field.
  rewrite sqrt_mult_alt by nra.
  rewrite sqrt_square by lra. reflexivity.
Qed.

(** X18.  For a total rise of at most 10^9 and a landing depth of at most
    10^9, the preview rebuilds the rise as [steps * riser] from the rounded
    riser of the engine's result: that product is within 0.051 per step of
    the effective rise, and the stringer drawn for a steel stair, whose
    length is the hypotenuse of the returned total run and of that product,
    is (in millimetres) within [0.101 + 0.051 * steps] of the returned
    stringer length. *)
Theorem drawn_stringer_close (totalRise : R) (desiredRiser desiredTread : option R)
    (stairType : string) (landingDepth : option R) :
  totalRise <= 10 ^ 9 ->
  (forall d, landingDepth = Some d -> d <= 10 ^ 9) ->
  let out := calculateStairs totalRise desiredRiser desiredTread stairType landingDepth in
  let drawnRise := IZR (steps out) * riser out in
  Rabs (drawnRise - Rmax 10 totalRise) <= IZR (steps out) * (51 / 1000) /\
  exists len : R,
    stringerMesh out =
      Mesh (BoxGeometry len 0.04 0.05) (mkMaterial 0xaeb6bf 1 (Some 0.2) None None)
           (totalRun out / 1000 / 2, drawnRise / 1000 / 2 - 0.02, -0.12)
           (- Js.atan2 (drawnRise / 1000) (totalRun out / 1000)) /\
    Rabs (1000 * len - stringerLength out) <= 101 / 1000 + IZR (steps out) * (51 / 1000).
Proof.
  intros _ _. cbv zeta.
  set (out := calculateStairs totalRise desiredRiser desiredTread stairType landingDepth).
  set (g := stairsBody totalRise desiredRiser desiredTread stairType landingDepth).
  assert (Es : steps out = steps g) by reflexivity.
  assert (Er : riser out = Js.toFixed1 (riser g)) by reflexivity.
  assert (Erun : totalRun out = Js.toFixed1 (totalRun g)) by reflexivity.
  assert (El : stringerLength out = Js.toFixed1 (stringerLength g)) by reflexivity.
  pose proof (stringerLength_body totalRise desiredRiser desiredTread stairType landingDepth)
    as Elen. cbv zeta in Elen. fold g in Elen.
  pose proof (riser_body totalRise desiredRiser desiredTread stairType landingDepth) as Erb.
  pose proof (steps_body totalRise desiredRiser desiredTread stairType landingDepth) as Esb.
  fold g in Erb, Esb.
  destruct (afterLoopB totalRise desiredRiser) as [b rb] eqn:E. cbn [fst snd] in Erb, Esb.
  destruct (afterLoopB_range _ _ _ _ E) as (Hb & _ & Hcover & _).
  rewrite <- Erb, <- Esb in Hcover. rewrite <- Esb in Hb. apply IZR_le in Hb.
  set (rise := Rmax 10 totalRise) in *.
  pose proof (toFixed1_close (riser g)) as Cr.
  assert (Hrise : Rabs (IZR (steps out) * riser out - rise) <= IZR (steps out) / 20).
  { rewrite Es, Er. apply Rabs_le. split; nra. }
  split; [eapply Rle_trans; [exact Hrise|]; rewrite Es; lra|].
  eexists. split; [reflexivity|].
  rewrite sqrt_scale_1000.
  set (d := IZR (steps out) * riser out) in *.
  replace (1000 * (sqrt (totalRun out * totalRun out + d * d) / 1000))
    with (sqrt (totalRun out * totalRun out + d * d)) by field.
  pose proof (hyp_lipschitz d rise (totalRun out)) as L1.
  replace (d * d + totalRun out * totalRun out)
    with (totalRun out * totalRun out + d * d) in L1 by ring.
  replace (rise * rise + totalRun out * totalRun out)
    with (totalRun out * totalRun out + rise * rise) in L1 by ring.
  pose proof (hyp_lipschitz (totalRun out) (totalRun g) rise) as L2.
  pose proof (toFixed1_error (totalRun g)) as C1. rewrite <- Erun in C1.
  pose proof (toFixed1_error (stringerLength g)) as C2. rewrite <- El, Elen in C2.
  apply Rabs_le_both in L1, L2, C2. rewrite Es in Hrise |- *.
  apply Rabs_le. lra.
Qed.

Lemma drawn_stringer_close_witness :
  Rabs (IZR (steps (calculateStairs 2700 (Some 170) (Some 280) "straight" None))
        * riser (calculateStairs 2700 (Some 170) (Some 280) "straight" None)
        - Rmax 10 2700)
  <= IZR (steps (calculateStairs 2700 (Some 170) (Some 280) "straight" None)) * (51 / 1000).
Proof.
  assert (H1 : 2700 <= 10 ^ 9) by (simpl; lra).
  assert (H2 : forall d, @None R = Some d -> d <= 10 ^ 9) by (intros d E; discriminate E).
  exact (proj1
    (drawn_stringer_close 2700 (Some 170) (Some 280) "straight" None H1 H2)).
Defined.

(** * The profile selects *)

(** Every state the two selects can reach names a category of the catalog
    and an index inside that category's list. *)
Lemma reachable_in_range (st : ProfileState) :
  reachable st ->
  exists ps, lookupCategory PROFILES (profileCategory st) = Some ps /\
             (profileIndex st < length ps)%nat.
Proof.
  induction 1 as [|st st' Hreach IH Hstep].
  - eexists. split; [reflexivity|]. cbn. lia.
  - destruct Hstep as [st value Hin | st options value Hopt Hin].
    + cbn [profileCategory profileIndex].
      unfold categoryOptions in Hin. cbn [In] in Hin.
      repeat (destruct Hin as [<-|Hin];
              [eexists; split; [reflexivity|cbn; lia]|]).
      contradiction.
    + cbn [profileCategory profileIndex]. unfold indexOptions in Hopt.
      destruct (lookupCategory PROFILES (profileCategory st)) as [ps|]; [|discriminate].
      inversion Hopt; subst. exists ps. split; [reflexivity|].
      apply in_seq in Hin. lia.
Qed.

(** X19.  Whatever the user does with the category and size selects, the
    profile shown in the result table exists: from the initial state
    (['angles'], 0), picking any offered category (which resets the index
    to 0) or any offered size, in any order, always leaves a state in which
    [PROFILES[profileCategory][profileIndex].name] is defined and the size
    select can be rendered, and the name shown is that of an entry of the
    chosen category. *)
Theorem selected_profile_defined (st : ProfileState) :
  reachable st ->
  exists (ps : list Profile) (p : Profile),
    lookupCategory PROFILES (profileCategory st) = Some ps /\
    In p ps /\
    selectedProfileName st = Some (name p) /\
    indexOptions st = Some (seq 0 (length ps)).
Proof.
  intros H. destruct (reachable_in_range st H) as (ps & Hps & Hidx).
  destruct (nth_error ps (profileIndex st)) as [p|] eqn:Ep.
  - exists ps, p. split; [exact Hps|]. split; [eapply nth_error_In; exact Ep|].
    unfold selectedProfileName, indexOptions. rewrite Hps, Ep. split; reflexivity.
  - apply nth_error_None in Ep. lia.
Qed.

Lemma selected_profile_defined_witness :
  exists (ps : list Profile) (p : Profile),
    lookupCategory PROFILES "pipes" = Some ps /\ In p ps /\
    selectedProfileName (mkProfileState "pipes" 1) = Some (name p) /\
    indexOptions (mkProfileState "pipes" 1) = Some (seq 0 (length ps)).
Proof.
  apply (selected_profile_defined (mkProfileState "pipes" 1)).
  apply (reach_step (mkProfileState "pipes" 0)).
  - apply (reach_step initialProfileState); [apply reach_initial|].
    apply pickCategory. cbn. auto 6.
  - apply (pickIndex (mkProfileState "pipes" 0) [0; 1]%nat 1%nat); [reflexivity|].
    cbn. auto.
Defined.

(** * The clamp *)

(** X20.  [clamp(v, a, b)] with [a <= b] lands in [[a, b]], leaves the
    numbers of [[a, b]] alone, sends everything below to [a] and
    everything above to [b], and clamping twice is clamping once; with the
    bounds the wrong way round ([b < a]) it returns [a] whatever [v] is. *)
Theorem clamp_spec (v a b : R) :
  (a <= b -> a <= Js.clamp v a b <= b) /\
  (a <= v <= b -> Js.clamp v a b = v) /\
  (a <= b -> v <= a -> Js.clamp v a b = a) /\
  (a <= b -> b <= v -> Js.clamp v a b = b) /\
  (b < a -> Js.clamp v a b = a) /\
  Js.clamp (Js.clamp v a b) a b = Js.clamp v a b.
Proof.
  unfold Js.clamp, Rmax, Rmin.
  repeat split; intros;
    repeat match goal with
    | |- context [Rle_dec ?x ?y] => destruct (Rle_dec x y)
    | H : context [Rle_dec ?x ?y] |- _ => destruct (Rle_dec x y)
    end; lra.
Qed.

Lemma clamp_spec_witness : Js.clamp 580 160 400 = 400 /\ Js.clamp 7 5 1 = 5.
Proof.
  split.
  - apply (proj1 (proj2 (proj2 (proj2 (clamp_spec 580 160 400))))); lra.
  - apply (proj1 (proj2 (proj2 (proj2 (proj2 (clamp_spec 7 5 1)))))). lra.
Defined.

(** * The loops in binary64 *)

(** On scenario A the two models agree: 16 steps of 168.75, no loop turn
    needed. *)
Example scenario_steps_b64 :
  B64.stepsAndRiser 0 0 2700 (Some 170%float) = Some (16%float, 168.75%float).
Proof. vm_compute. reflexivity. Qed.

(** A rise between 210 and 240: loop A adds a step, loop B removes it. *)
Example both_loops_b64 :
  B64.stepsAndRiser 1 1 230 (Some 170%float) = Some (1%float, 230%float)
  /\ B64.stepsAndRiser 0 1 230 (Some 170%float) = None.
Proof. split; vm_compute; reflexivity. Qed.

(** A total rise of 7e19 with a desired riser of 120: the rounded quotient
    is 583333333333333376 steps, the riser the double just below 120
    (119.99999999999999). *)
Lemma spin_initial :
  B64.initialSteps 7e19 (Some 120%float)
  = (583333333333333376%float, 0x1.dffffffffffffp+6%float).
Proof. vm_compute. reflexivity. Qed.

(** In that state the guard of loop B holds and its body changes nothing:
    583333333333333376 - 1 rounds back to 583333333333333376. *)
Lemma spin_guard :
  PrimFloat.ltb 0x1.dffffffffffffp+6 120 && PrimFloat.ltb 1 583333333333333376 = true.
Proof. vm_compute. reflexivity. Qed.

Lemma spin_decrement : (583333333333333376 - 1)%float = 583333333333333376%float.
Proof. vm_compute. reflexivity. Qed.

Lemma spin_riser :
  (7e19 / 583333333333333376)%float = 0x1.dffffffffffffp+6%float.
Proof. vm_compute. reflexivity. Qed.

Lemma loopB_spins (fuel : nat) :
  B64.loopB fuel 7e19 583333333333333376 0x1.dffffffffffffp+6 = None.
Proof.
  induction fuel as [|fuel IH]; cbn [B64.loopB]; rewrite spin_guard; [reflexivity|].
  rewrite spin_decrement, spin_riser. exact IH.
Qed.

Lemma loopA_passes (fuel : nat) :
  B64.loopA fuel 7e19 583333333333333376 0x1.dffffffffffffp+6
  = Some (583333333333333376%float, 0x1.dffffffffffffp+6%float).
Proof.
  assert (G : PrimFloat.ltb 210 0x1.dffffffffffffp+6
              && PrimFloat.ltb 583333333333333376 200 = false)
    by (vm_compute; reflexivity).
  destruct fuel; cbn [B64.loopA]; rewrite G; reflexivity.
Qed.

(** C1.  The defect: [calculateStairs(7e19, 120, ...)] never returns.  The
    step count after line 60 is 583333333333333376 and the riser
    119.99999999999999, below 120; loop A is passed at once, and in loop B
    [steps -= 1] leaves [steps] unchanged (a double above 2^53 minus 1
    rounds back to itself), so the riser stays below 120 and the guard of
    loop B holds after every turn, however many turns are taken. *)
Theorem loopB_never_returns (fuelA fuelB : nat) :
  B64.stepsAndRiser fuelA fuelB 7e19 (Some 120%float) = None /\
  B64.initialSteps 7e19 (Some 120%float)
    = (583333333333333376%float, 0x1.dffffffffffffp+6%float) /\
  B64.loopA fuelA 7e19 583333333333333376 0x1.dffffffffffffp+6
    = Some (583333333333333376%float, 0x1.dffffffffffffp+6%float) /\
  B64.loopB fuelB 7e19 583333333333333376 0x1.dffffffffffffp+6 = None /\
  PrimFloat.ltb 0x1.dffffffffffffp+6 120 = true /\
  PrimFloat.ltb 1 583333333333333376 = true /\
  (583333333333333376 - 1)%float = 583333333333333376%float.
Proof.
  split; [|split; [exact spin_initial|split; [apply loopA_passes|split;
    [apply loopB_spins|split; [|split; [|exact spin_decrement]]]]]].
  - unfold B64.stepsAndRiser. rewrite spin_initial.
    replace (B64.max 10 7e19) with 7e19%float by (vm_compute; reflexivity).
    rewrite loopA_passes. apply loopB_spins.
  - vm_compute. reflexivity.
  - vm_compute. reflexivity.
Qed.
